(** * fw/bno055_steps/wifi.ino: WiFi connector and telemetry sender

    A shallow embedding of the firmware glue in [wifi.ino] and the
    properties of its retry and polling loops.

    The file talks to the outside world only through vendor calls
    ([WiFi], [HTTPClient], [Serial], [delay]), the timer register [T1C]
    and the collaborator [sos_mode].  Each such call is an event of a
    trace; what the world answers ([WiFi.status()], [https.begin],
    [https.POST]) comes from an environment of answer sequences. *)

From Stdlib Require Import ZArith List String Ascii Bool Lia.
Import ListNotations.
Local Open Scope Z_scope.

(** ** Platform types *)

(** [wl_status_t] of the ESP8266 core, with the numeric value of each
    enumerator. *)
Inductive wl_status_t : Set :=
| WL_NO_SHIELD
| WL_IDLE_STATUS
| WL_NO_SSID_AVAIL
| WL_SCAN_COMPLETED
| WL_CONNECTED
| WL_CONNECT_FAILED
| WL_CONNECTION_LOST
| WL_WRONG_PASSWORD
| WL_DISCONNECTED.

Definition wl_value (s : wl_status_t) : Z :=
  match s with
  | WL_NO_SHIELD => 255
  | WL_IDLE_STATUS => 0
  | WL_NO_SSID_AVAIL => 1
  | WL_SCAN_COMPLETED => 2
  | WL_CONNECTED => 3
  | WL_CONNECT_FAILED => 4
  | WL_CONNECTION_LOST => 5
  | WL_WRONG_PASSWORD => 6
  | WL_DISCONNECTED => 7
  end.

(** [a == b] on the enumeration. *)
Definition wl_eqb (a b : wl_status_t) : bool := wl_value a =? wl_value b.

Inductive WiFiMode : Set := WIFI_OFF | WIFI_STA | WIFI_AP | WIFI_AP_STA.

(** ** Events *)

(** One constructor per call that leaves the file, and [ET1CWrite] for
    an assignment to the register [T1C].  [ECall] and [EReturn] are
    ghost events: they bracket one run of the single-shot sender, so
    that invocations and returned statuses can be counted. *)
Inductive Event : Type :=
| EWiFiMode (m : WiFiMode)
| EWiFiBegin (ssid_ password_ : string)
| EWiFiStatus (s : wl_status_t)
| ESerialPrint (s : string)
| ESerialPrintln (s : string)
| ESerialPrintf (fmt : string) (code : Z) (arg : string)
| EDelay (ms : Z)
| ESosMode
| ET1CWrite (v : Z)
| EClientNew
| EHttpClientNew
| EClientSetInsecure
| EClientSetTimeout (ms : Z)
| EHttpsBegin (url : string) (ok : bool)
| EHttpsAddHeader (name value : string)
| EHttpsPost (body : string) (code : Z)
| EHttpsGetString (body : string)
| EHttpsEnd
| ECall (post_data : string)
| EReturn (code : Z).

(** ** Environment and state *)

(** What the outside answers.  [wifi_readings k] is the answer to the
    [k]-th [WiFi.status()] call, [begin_answers k] the result of the
    [k]-th [https.begin], [post_answers k] the status code and body of
    the [k]-th POST.  [sos_mode] is defined outside this file:
    [sos_returns] says whether it hands control back or blocks for
    good, and [sos_T1C v] is the value it leaves in [T1C] when it
    finds [v] there. *)
Record Env : Type := mkEnv {
  wifi_readings : nat -> wl_status_t;
  begin_answers : nat -> bool;
  post_answers : nat -> Z * string;
  sos_returns : bool;
  sos_T1C : Z -> Z
}.

(** The timer control register and how many answers were consumed. *)
Record State : Type := mkState {
  T1C : Z;
  wifi_reads : nat;
  begins : nat;
  posts : nat
}.

Definition set_T1C (v : Z) (st : State) : State :=
  mkState v (wifi_reads st) (begins st) (posts st).
Definition next_wifi (st : State) : State :=
  mkState (T1C st) (S (wifi_reads st)) (begins st) (posts st).
Definition next_begin (st : State) : State :=
  mkState (T1C st) (wifi_reads st) (S (begins st)) (posts st).
Definition next_post (st : State) : State :=
  mkState (T1C st) (wifi_reads st) (begins st) (S (posts st)).

(** ** The monad of the embedding *)

(** A run returns a value, or is stuck for good inside [sos_mode], or
    the model ran out of loop fuel.  The first two carry the state
    reached and the events emitted, oldest first. *)
Inductive Outcome (A : Type) : Type :=
| Returned (a : A) (st : State) (evs : list Event)
| Halted (st : State) (evs : list Event)
| OutOfFuel.
Arguments Returned {A} a st evs.
Arguments Halted {A} st evs.
Arguments OutOfFuel {A}.

Definition M (A : Type) : Type := State -> Outcome A.

Definition ret {A : Type} (a : A) : M A := fun st => Returned a st [].

(** [o] with the events [evs] emitted before it. *)
Definition prepend {A : Type} (evs : list Event) (o : Outcome A) : Outcome A :=
  match o with
  | Returned a st ev => Returned a st (evs ++ ev)
  | Halted st ev => Halted st (evs ++ ev)
  | OutOfFuel => OutOfFuel
  end.

Definition bind {A B : Type} (m : M A) (f : A -> M B) : M B :=
  fun st =>
    match m st with
    | Returned a st1 ev1 => prepend ev1 (f a st1)
    | Halted st1 ev1 => Halted st1 ev1
    | OutOfFuel => OutOfFuel
    end.

Notation "x <- m ;; k" := (bind m (fun x => k))
  (at level 61, m at next level, right associativity).
Notation "m ;; k" := (bind m (fun _ => k))
  (at level 61, right associativity).

Definition emit (e : Event) : M unit := fun st => Returned tt st [e].

Definition events {A : Type} (o : Outcome A) : list Event :=
  match o with
  | Returned _ _ evs => evs
  | Halted _ evs => evs
  | OutOfFuel => []
  end.

Definition final_state {A : Type} (o : Outcome A) : option State :=
  match o with
  | Returned _ st _ => Some st
  | Halted st _ => Some st
  | OutOfFuel => None
  end.

Definition result {A : Type} (o : Outcome A) : option A :=
  match o with
  | Returned a _ _ => Some a
  | _ => None
  end.

(** ** Constants of the file *)

Definition nl : string := String (ascii_of_nat 10) EmptyString.

Definition ssid : string := "DataCity-802 - 2.4GHz".
Definition password : string := "6340631697".
Definition url : string :=
  "https://capstone-backend-f6qu.onrender.com/api/send_recording".

Definition msg_connecting : string := "Connecting to WiFi ..".
Definition msg_wifi_failed : string := "Failed to connect to WiFi".
Definition msg_wifi_connected : string := "Connected to the WiFi network".
Definition msg_retrying : string := (nl ++ "Retrying...")%string.
Definition msg_interrupt : string := "ERROR: INTERRUPT WAS NOT DISABLED".
Definition msg_unable : string := "[HTTPS] Unable to connect".
Definition msg_post_failed : string := "ERROR: POST REQUEST FAILED".
Definition fmt_response : string :=
  ("[HTTPS] POST Response: (%d) %s" ++ nl)%string.

(** Fuel handed to the two [while] loops; both stop long before. *)
Definition loop_fuel : nat := 1000.

(** ** The operations *)

(** [bool is_bad_http_code(int httpCode)] *)
Definition is_bad_http_code (httpCode : Z) : bool :=
  (httpCode <? 200) || (300 <=? httpCode).

Section Firmware.

Variable env : Env.

(** *** Collaborators *)

Definition WiFi_mode (m : WiFiMode) : M unit := emit (EWiFiMode m).
Definition WiFi_begin (s p : string) : M unit := emit (EWiFiBegin s p).
Definition WiFi_status : M wl_status_t :=
  fun st =>
    let s := wifi_readings env (wifi_reads st) in
    Returned s (next_wifi st) [EWiFiStatus s].

Definition Serial_print (s : string) : M unit := emit (ESerialPrint s).
Definition Serial_println (s : string) : M unit := emit (ESerialPrintln s).
Definition Serial_printf (fmt : string) (code : Z) (arg : string) : M unit :=
  emit (ESerialPrintf fmt code arg).
Definition delay (ms : Z) : M unit := emit (EDelay ms).

Definition read_T1C : M Z := fun st => Returned (T1C st) st [].
(** [T1C = v;] *)
Definition write_T1C (v : Z) : M unit :=
  fun st => Returned tt (set_T1C v st) [ET1CWrite v].

(** [sos_mode] is called here and defined elsewhere in the repository:
    it is a parameter of the model.  Its call is an event; it hands
    control back or blocks for good as [sos_returns] says, and it
    leaves in [T1C] what [sos_T1C] says. *)
Definition sos_mode : M unit :=
  fun st =>
    let st' := set_T1C (sos_T1C env (T1C st)) st in
    if sos_returns env then Returned tt st' [ESosMode]
    else Halted st' [ESosMode].

Definition client_new : M unit := emit EClientNew.
Definition https_new : M unit := emit EHttpClientNew.
Definition client_setInsecure : M unit := emit EClientSetInsecure.
Definition client_setTimeout (ms : Z) : M unit := emit (EClientSetTimeout ms).
Definition https_begin (u : string) : M bool :=
  fun st =>
    let ok := begin_answers env (begins st) in
    Returned ok (next_begin st) [EHttpsBegin u ok].
Definition https_addHeader (name value : string) : M unit :=
  emit (EHttpsAddHeader name value).
Definition https_POST (body : string) : M Z :=
  fun st =>
    let code := fst (post_answers env (posts st)) in
    Returned code (next_post st) [EHttpsPost body code].
(** The body of the response to the latest POST. *)
Definition https_getString : M string :=
  fun st =>
    let body := snd (post_answers env (Nat.pred (posts st))) in
    Returned body st [EHttpsGetString body].
Definition https_end : M unit := emit EHttpsEnd.

(** *** [bool initialize_wifi()] *)

(** The [while (WiFi.status() != WL_CONNECTED)] loop; [attempts] is
    an [unsigned int]. *)
Fixpoint wifi_loop (fuel : nat) (attempts : Z) : M unit :=
  match fuel with
  | O => fun _ => OutOfFuel
  | S fuel' =>
      s <- WiFi_status ;;
      if negb (wl_eqb s WL_CONNECTED) then
        Serial_print "." ;;
        delay 1000 ;;
        let attempts := (attempts + 1) mod 2 ^ 32 in
        if 10 <? attempts then
          Serial_println msg_wifi_failed (* break *)
        else wifi_loop fuel' attempts
      else ret tt
  end.

Definition initialize_wifi_fuel (fuel : nat) : M bool :=
  WiFi_mode WIFI_STA ;;
  WiFi_begin ssid password ;;
  Serial_print msg_connecting ;;
  wifi_loop fuel 0 ;;
  s <- WiFi_status ;;
  if wl_eqb s WL_CONNECTED then
    Serial_println msg_wifi_connected ;;
    ret true
  else
    Serial_println msg_wifi_failed ;;
    ret false.

Definition initialize_wifi : M bool := initialize_wifi_fuel loop_fuel.

(** *** [int send_data(String post_data)] *)

Definition send_data (post_data : string) : M Z :=
  emit (ECall post_data) ;;
  let httpCode := -1 in
  t1c <- read_T1C ;;
  (if negb (t1c =? 0) then
     Serial_println msg_interrupt ;;
     sos_mode
   else ret tt) ;;
  client_new ;;
  https_new ;;
  client_setInsecure ;;
  client_setTimeout 50000 ;;
  ok <- https_begin url ;;
  httpCode <-
    (if ok then
       delay 1000 ;;
       https_addHeader "Content-Type" "application/json" ;;
       httpCode <- https_POST post_data ;;
       payload <- https_getString ;;
       https_end ;;
       Serial_printf fmt_response httpCode "Message:" ;;
       Serial_println payload ;;
       (if is_bad_http_code httpCode then
          Serial_println msg_post_failed
        else ret tt) ;;
       ret httpCode
     else
       Serial_println msg_unable ;;
       sos_mode ;;
       ret httpCode) ;;
  emit (EReturn httpCode) ;;
  ret httpCode.

(** *** [void send_data(String post_data, uint8_t max_attempts)]

    The overload is named [send_data_attempts] here. *)

(** The [while (is_bad_http_code(httpCode) && attempts < max_attempts)]
    loop; [attempts] is a [uint8_t]. *)
Fixpoint retry_loop (fuel : nat) (post_data : string) (max_attempts : Z)
    (httpCode : Z) (attempts : Z) : M unit :=
  match fuel with
  | O => fun _ => OutOfFuel
  | S fuel' =>
      if is_bad_http_code httpCode && (attempts <? max_attempts) then
        Serial_println msg_retrying ;;
        let attempts := (attempts + 1) mod 256 in
        httpCode <- send_data post_data ;;
        retry_loop fuel' post_data max_attempts httpCode attempts
      else ret tt
  end.

Definition send_data_attempts_fuel (fuel : nat) (post_data : string)
    (max_attempts : Z) : M unit :=
  httpCode <- send_data post_data ;;
  let attempts := 1 in
  retry_loop fuel post_data max_attempts httpCode attempts.

Definition send_data_attempts (post_data : string) (max_attempts : Z)
    : M unit :=
  send_data_attempts_fuel loop_fuel post_data max_attempts.

End Firmware.

(** ** Reading a trace *)

Definition is_call (e : Event) : bool :=
  match e with ECall _ => true | _ => false end.
Definition is_delay (e : Event) : bool :=
  match e with EDelay _ => true | _ => false end.
Definition is_status_read (e : Event) : bool :=
  match e with EWiFiStatus _ => true | _ => false end.
Definition is_sos (e : Event) : bool :=
  match e with ESosMode => true | _ => false end.
(** Client construction, [https.begin] or POST. *)
Definition is_network (e : Event) : bool :=
  match e with
  | EClientNew | EHttpClientNew | EHttpsBegin _ _ | EHttpsPost _ _ => true
  | _ => false
  end.
Definition is_post (e : Event) : bool :=
  match e with EHttpsPost _ _ => true | _ => false end.

Definition count (p : Event -> bool) (evs : list Event) : nat :=
  List.length (filter p evs).

(** Number of runs of the single-shot sender. *)
Definition calls (evs : list Event) : nat := count is_call evs.
Definition delays (evs : list Event) : nat := count is_delay evs.
Definition status_reads (evs : list Event) : nat := count is_status_read evs.

(** A delay event, if it is one, is [delay(1000)]. *)
Definition delay_is_1s (e : Event) : Prop :=
  is_delay e = true -> e = EDelay 1000.

(** The statuses the single-shot sender returned, in order. *)
Fixpoint statuses (evs : list Event) : list Z :=
  match evs with
  | [] => []
  | EReturn c :: r => c :: statuses r
  | _ :: r => statuses r
  end.

(** The events outside every [ECall] ... [EReturn] bracket: what the
    caller of the single-shot sender did itself. *)
Fixpoint outside_calls (inside : bool) (evs : list Event) : list Event :=
  match evs with
  | [] => []
  | ECall _ :: r => outside_calls true r
  | EReturn _ :: r => outside_calls false r
  | e :: r => if inside then outside_calls inside r
              else e :: outside_calls inside r
  end.

(** Whether the trace ends inside such a bracket. *)
Fixpoint inside_after (inside : bool) (evs : list Event) : bool :=
  match evs with
  | [] => inside
  | ECall _ :: r => inside_after true r
  | EReturn _ :: r => inside_after false r
  | _ :: r => inside_after inside r
  end.

Definition own_events (evs : list Event) : list Event :=
  outside_calls false evs.

Definition bad_status (c : Z) : Prop := is_bad_http_code c = true.

(** What is in [T1C] after the trace [evs] when [t] was there before
    and only [sos_mode] changed it: one application of [sos_T1C] per
    call of [sos_mode]. *)
Definition T1C_after (env : Env) (evs : list Event) (t : Z) : Z :=
  Nat.iter (count is_sos evs) (sos_T1C env) t.

(** The one line the retry loop prints itself. *)
Definition retrying : Event := ESerialPrintln msg_retrying.

(** ** The retry loop as a relation *)

(** [retry_run env p max code attempts st o]: entered with the locals
    [httpCode = code] and [attempts], in state [st], the retry loop of
    the two-argument [send_data] ends in [o].  One rule per way through
    the loop: the test fails; the sender never comes back; the sender
    returns and the loop goes round again. *)
Inductive retry_run (env : Env) (p : string) (max_attempts : Z)
  : Z -> Z -> State -> Outcome unit -> Prop :=
| retry_stop code attempts st :
    is_bad_http_code code && (attempts <? max_attempts) = false ->
    retry_run env p max_attempts code attempts st (Returned tt st [])
| retry_halt code attempts st st1 ev1 :
    is_bad_http_code code && (attempts <? max_attempts) = true ->
    send_data env p st = Halted st1 ev1 ->
    retry_run env p max_attempts code attempts st
      (Halted st1 (ESerialPrintln msg_retrying :: ev1))
| retry_again code attempts st c st1 ev1 o :
    is_bad_http_code code && (attempts <? max_attempts) = true ->
    send_data env p st = Returned c st1 ev1 ->
    retry_run env p max_attempts c ((attempts + 1) mod 256) st1 o ->
    retry_run env p max_attempts code attempts st
      (prepend (ESerialPrintln msg_retrying :: ev1) o).

(** ** Concrete environments *)

Definition st0 : State := mkState 0 0 0 0.
Definition st_T1C_set : State := mkState 1 0 0 0.

(** The server answers 500 three times, then 200. *)
Definition env_500x3_200 : Env :=
  mkEnv (fun _ => WL_CONNECTED) (fun _ => true)
        (fun k => if (k <? 3)%nat then (500, "error"%string)
                  else (200, "ok"%string))
        true (fun v => v).

(** The server answers 500 every time. *)
Definition env_500 : Env :=
  mkEnv (fun _ => WL_CONNECTED) (fun _ => true)
        (fun _ => (500, "error"%string)) true (fun v => v).

(** The server answers 200; [sos_mode] returns. *)
Definition env_200 : Env :=
  mkEnv (fun _ => WL_CONNECTED) (fun _ => true)
        (fun _ => (200, "ok"%string)) true (fun v => v).

(** [https.begin] fails every time; [sos_mode] returns. *)
Definition env_no_begin : Env :=
  mkEnv (fun _ => WL_CONNECTED) (fun _ => false)
        (fun _ => (200, "ok"%string)) true (fun v => v).

(** [https.begin] fails and [sos_mode] blocks for good. *)
Definition env_no_begin_sos_blocks : Env :=
  mkEnv (fun _ => WL_CONNECTED) (fun _ => false)
        (fun _ => (200, "ok"%string)) false (fun v => v).

(** The server answers 200; [sos_mode] blocks for good. *)
Definition env_200_sos_blocks : Env :=
  mkEnv (fun _ => WL_CONNECTED) (fun _ => true)
        (fun _ => (200, "ok"%string)) false (fun v => v).

(** The access point is never reached. *)
Definition env_never_connected : Env :=
  mkEnv (fun _ => WL_DISCONNECTED) (fun _ => true)
        (fun _ => (200, "ok"%string)) true (fun v => v).

(** The first reading is connected, the link is lost right after. *)
Definition env_link_drops : Env :=
  mkEnv (fun k => match k with O => WL_CONNECTED | _ => WL_CONNECTION_LOST end)
        (fun _ => true) (fun _ => (200, "ok"%string)) true (fun v => v).

(** ** More readers of a trace *)

Definition is_begin (e : Event) : bool :=
  match e with EHttpsBegin _ _ => true | _ => false end.
Definition is_begin_ok (e : Event) : bool :=
  match e with EHttpsBegin _ true => true | _ => false end.
Definition is_end (e : Event) : bool :=
  match e with EHttpsEnd => true | _ => false end.
Definition is_client (e : Event) : bool :=
  match e with EClientNew => true | _ => false end.
Definition is_insecure (e : Event) : bool :=
  match e with EClientSetInsecure => true | _ => false end.
Definition is_wifi (e : Event) : bool :=
  match e with
  | EWiFiMode _ | EWiFiBegin _ _ | EWiFiStatus _ => true
  | _ => false
  end.
Definition is_wifi_setup (e : Event) : bool :=
  match e with EWiFiMode _ | EWiFiBegin _ _ => true | _ => false end.
(** [Serial.println("Failed to connect to WiFi")]. *)
Definition is_failed_line (e : Event) : bool :=
  match e with
  | ESerialPrintln s => String.eqb s msg_wifi_failed
  | _ => false
  end.

(** What a run of the sender for the payload [p] may emit: its HTTP
    calls carry the constants of the file and the payload, and it has
    no WiFi call. *)
Definition sender_event (p : string) (e : Event) : Prop :=
  match e with
  | ECall b => b = p
  | EHttpsPost b _ => b = p
  | EHttpsBegin u _ => u = url
  | EClientSetTimeout ms => ms = 50000
  | EDelay ms => ms = 1000
  | EHttpsAddHeader n v =>
      n = "Content-Type"%string /\ v = "application/json"%string
  | EWiFiMode _ | EWiFiBegin _ _ | EWiFiStatus _ => False
  | _ => True
  end.

(** What the polling loop of the connector may emit. *)
Definition poll_event (e : Event) : Prop :=
  match e with
  | EWiFiStatus _ | ESerialPrint _ | ESerialPrintln _ => True
  | EDelay ms => ms = 1000
  | _ => False
  end.

(** ** The order of the HTTP calls *)

(** Where a run stands in its use of a connection: nothing open; the
    client built; the [HTTPClient] built; certificate checks switched
    off; the timeout set; [https.begin] succeeded; the delay done; the
    header added; the POST made; the body fetched. *)
Inductive ConnPhase : Set :=
| Idle | Made | Made2 | Insecure | Timed
| Opened | Delayed | Headed | Posted | Fetched.

(** The one event each phase admits, and the phase it leads to.
    Outside a connection every event passes but those that need one. *)
Definition conn_step (ph : ConnPhase) (e : Event) : option ConnPhase :=
  match ph, e with
  | Idle, EClientNew => Some Made
  | Idle, (EHttpClientNew | EClientSetInsecure | EClientSetTimeout _
          | EHttpsBegin _ _ | EDelay _ | EHttpsAddHeader _ _
          | EHttpsPost _ _ | EHttpsGetString _ | EHttpsEnd) => None
  | Idle, _ => Some Idle
  | Made, EHttpClientNew => Some Made2
  | Made2, EClientSetInsecure => Some Insecure
  | Insecure, EClientSetTimeout _ => Some Timed
  | Timed, EHttpsBegin _ true => Some Opened
  | Timed, EHttpsBegin _ false => Some Idle
  | Opened, EDelay _ => Some Delayed
  | Delayed, EHttpsAddHeader _ _ => Some Headed
  | Headed, EHttpsPost _ _ => Some Posted
  | Posted, EHttpsGetString _ => Some Fetched
  | Fetched, EHttpsEnd => Some Idle
  | _, _ => None
  end.

Fixpoint conn_run (ph : ConnPhase) (evs : list Event) : option ConnPhase :=
  match evs with
  | [] => Some ph
  | e :: r =>
      match conn_step ph e with
      | Some ph' => conn_run ph' r
      | None => None
      end
  end.

(** The first connected reading is number 3. *)
Definition env_connects_at_3 : Env :=
  mkEnv (fun k => if (k <? 3)%nat then WL_DISCONNECTED else WL_CONNECTED)
        (fun _ => true) (fun _ => (200, "ok"%string)) true (fun v => v).

(** ** The retry policy on its own *)

(** How many more calls the retry loop makes when the last status was
    [prev], [budget] attempts remain and the next calls get the
    statuses [code_at n], [code_at (n + 1)], ... *)
Fixpoint retries (code_at : nat -> Z) (budget : nat) (prev : Z) (n : nat)
  : nat :=
  match budget with
  | O => O
  | S budget' =>
      if is_bad_http_code prev
      then S (retries code_at budget' (code_at n) (S n))
      else O
  end.

(** * Properties *)

(** ** Status classification *)

Lemma is_bad_http_code_iff (c : Z) :
  is_bad_http_code c = true <-> c < 200 \/ c >= 300.
Proof.
  unfold is_bad_http_code.
  rewrite orb_true_iff, Z.ltb_lt, Z.leb_le. lia.
Qed.

(** C4: for every integer code [c], [is_bad_http_code c] is true
    exactly when [c < 200] or [c >= 300]; 200 is good, 301, 404 and
    199 are bad. *)
Theorem is_bad_http_code_spec :
  (forall c : Z, is_bad_http_code c = true <-> c < 200 \/ c >= 300)
  /\ is_bad_http_code 200 = false
  /\ is_bad_http_code 301 = true
  /\ is_bad_http_code 404 = true
  /\ is_bad_http_code 199 = true.
Proof.
  split; [exact is_bad_http_code_iff | repeat split; reflexivity].
Qed.

(** ** Traces *)

Lemma count_app (p : Event -> bool) (a b : list Event) :
  count p (a ++ b) = (count p a + count p b)%nat.
Proof. unfold count. now rewrite filter_app, length_app. Qed.

Lemma calls_app (a b : list Event) :
  calls (a ++ b) = (calls a + calls b)%nat.
Proof. apply count_app. Qed.

Lemma statuses_app (a b : list Event) :
  statuses (a ++ b) = statuses a ++ statuses b.
Proof.
  induction a as [|e a IH]; [reflexivity|].
  destruct e; simpl; now rewrite ?IH.
Qed.

Lemma outside_calls_app (a b : list Event) : forall inside,
  outside_calls inside (a ++ b) =
  outside_calls inside a ++ outside_calls (inside_after inside a) b.
Proof.
  induction a as [|e a IH]; intros inside; [reflexivity|].
  destruct e, inside; simpl; now rewrite ?IH.
Qed.



Lemma events_prepend {A : Type} (evs : list Event) (o : Outcome A) :
  o <> OutOfFuel -> events (prepend evs o) = evs ++ events o.
Proof. destruct o; simpl; congruence. Qed.

Lemma prepend_total {A : Type} (evs : list Event) (o : Outcome A) :
  o <> OutOfFuel -> prepend evs o <> OutOfFuel.
Proof. destruct o; simpl; congruence. Qed.

Lemma final_state_prepend {A : Type} (evs : list Event) (o : Outcome A) :
  final_state (prepend evs o) = final_state o.
Proof. now destruct o. Qed.

Lemma result_prepend {A : Type} (evs : list Event) (o : Outcome A) :
  result (prepend evs o) = result o.
Proof. now destruct o. Qed.

(** ** The single-shot sender *)

(** Runs the sender symbolically: one case per answer of the world. *)
Ltac run_step :=
  cbn [app negb prepend fst snd Nat.pred
       T1C wifi_reads begins posts set_T1C next_wifi next_begin next_post].

Ltac case_on b :=
  match goal with |- context [b] => destruct b eqn:?; run_step end.

Ltac run_send_data env st :=
  unfold send_data, read_T1C, sos_mode, client_new, https_new,
    client_setInsecure, client_setTimeout, https_begin, https_addHeader,
    https_POST, https_getString, https_end, delay, Serial_println,
    Serial_printf, bind, emit, ret;
  run_step;
  destruct (T1C st =? 0) eqn:?; run_step;
  [ | case_on (sos_returns env) ];
  try case_on (begin_answers env (begins st));
  try case_on (sos_returns env);
  try case_on (is_bad_http_code (fst (post_answers env (posts st)))).

Lemma send_data_total env p st : send_data env p st <> OutOfFuel.
Proof. run_send_data env st; discriminate. Qed.

Lemma send_data_returned env p st c st1 ev :
  send_data env p st = Returned c st1 ev ->
  T1C st1 = T1C_after env ev (T1C st) /\ calls ev = 1%nat
  /\ statuses ev = [c]
  /\ own_events ev = [] /\ inside_after false ev = false.
Proof.
  run_send_data env st; intros H; inversion H; subst;
    repeat split; reflexivity.
Qed.

Lemma send_data_halted env p st st1 ev :
  send_data env p st = Halted st1 ev ->
  T1C st1 = T1C_after env ev (T1C st) /\ calls ev = 1%nat
  /\ statuses ev = []
  /\ own_events ev = [] /\ sos_returns env = false.
Proof.
  run_send_data env st; intros H; inversion H; subst;
    repeat split; reflexivity.
Qed.

Lemma send_data_begin_false env p st c st1 ev :
  begin_answers env (begins st) = false ->
  send_data env p st = Returned c st1 ev -> c = -1.
Proof.
  intros Hb. run_send_data env st; intros H; inversion H; subst;
    congruence.
Qed.

Lemma send_data_begins env p st c st1 ev :
  send_data env p st = Returned c st1 ev -> begins st1 = S (begins st).
Proof.
  run_send_data env st; intros H; inversion H; subst; reflexivity.
Qed.

(** ** The retry loop *)

Lemma prepend_prepend {A : Type} (a b : list Event) (o : Outcome A) :
  prepend a (prepend b o) = prepend (a ++ b) o.
Proof. destruct o; simpl; now rewrite ?app_assoc. Qed.

Lemma last_cons_default {A : Type} (c d : A) (l : list A) :
  last (c :: l) d = last l c.
Proof.
  revert c d; induction l as [|x l IH]; intros c d; [reflexivity|].
  change (last (c :: x :: l) d) with (last (x :: l) d).
  now rewrite (IH x d), (IH x c).
Qed.

Lemma Forall_last {A : Type} (P : A -> Prop) (l : list A) (d : A) :
  Forall P l -> l <> [] -> P (last l d).
Proof.
  induction 1 as [|x l Hx Hl IH]; [congruence|]. intros _.
  destruct l as [|y l]; [exact Hx|].
  change (P (last (y :: l) d)). apply IH. discriminate.
Qed.

Section RetryLoop.

Variable env : Env.
Variable p : string.
Variable max_attempts : Z.
Hypothesis max_range : 0 <= max_attempts < 256.

(** The loop test holds only while attempts remain. *)
Lemma loop_test_true code attempts :
  is_bad_http_code code && (attempts <? max_attempts) = true ->
  bad_status code /\ attempts < max_attempts.
Proof.
  rewrite andb_true_iff, Z.ltb_lt. intros [Hc Ha]. now split.
Qed.

Lemma next_attempt attempts :
  0 <= attempts < max_attempts -> (attempts + 1) mod 256 = attempts + 1.
Proof. intros H. apply Z.mod_small. lia. Qed.

(** With enough fuel the loop of the model is a run of the relation:
    it never runs dry. *)
Lemma retry_loop_run : forall fuel code attempts st,
  0 <= attempts ->
  Z.max 0 (max_attempts - attempts) < Z.of_nat fuel ->
  retry_run env p max_attempts code attempts st
    (retry_loop env fuel p max_attempts code attempts st).
Proof.
  induction fuel as [|fuel IH]; intros code attempts st Ha Hfuel.
  - simpl in Hfuel. lia.
  - cbn [retry_loop].
    destruct (is_bad_http_code code && (attempts <? max_attempts)) eqn:C.
    + destruct (loop_test_true _ _ C) as [_ Hlt].
      unfold bind at 1, Serial_println, emit.
      unfold bind at 1.
      destruct (send_data env p st) as [c st1 ev1 | st1 ev1 |] eqn:E.
      * rewrite prepend_prepend. cbn [app].
        apply retry_again with (c := c) (st1 := st1); auto.
        apply IH; rewrite next_attempt; lia.
      * cbn [prepend app]. now apply retry_halt.
      * now destruct (send_data_total env p st).
    + now apply retry_stop.
Qed.

Lemma retry_run_total code attempts st o :
  retry_run env p max_attempts code attempts st o -> o <> OutOfFuel.
Proof.
  induction 1; try discriminate. now apply prepend_total.
Qed.

(** What one more round adds to the trace. *)
Lemma round_events c st st1 ev1 (o : Outcome unit) :
  send_data env p st = Returned c st1 ev1 -> o <> OutOfFuel ->
  let evs := events (prepend (retrying :: ev1) o) in
  evs = retrying :: ev1 ++ events o
  /\ calls evs = S (calls (events o))
  /\ statuses evs = c :: statuses (events o)
  /\ own_events evs = retrying :: own_events (events o).
Proof.
  intros E Ho evs.
  destruct (send_data_returned _ _ _ _ _ _ E) as (_ & Hc & Hs & Hown & Hin).
  assert (Hevs : evs = retrying :: ev1 ++ events o)
    by (unfold evs; now rewrite events_prepend).
  rewrite Hevs. repeat split.
  - change (calls (retrying :: ev1 ++ events o))
      with (calls (ev1 ++ events o)).
    now rewrite calls_app, Hc.
  - change (statuses (retrying :: ev1 ++ events o))
      with (statuses (ev1 ++ events o)).
    now rewrite statuses_app, Hs.
  - unfold own_events in *.
    change (outside_calls false (retrying :: ev1 ++ events o))
      with (retrying :: outside_calls false (ev1 ++ events o)).
    now rewrite outside_calls_app, Hown, Hin.
Qed.

Lemma halt_events st st1 ev1 :
  send_data env p st = Halted st1 ev1 ->
  let evs := retrying :: ev1 in
  calls evs = 1%nat /\ statuses evs = [] /\ own_events evs = [retrying].
Proof.
  intros E evs.
  destruct (send_data_halted _ _ _ _ _ E) as (_ & Hc & Hs & Hown & _).
  repeat split.
  - exact Hc.
  - exact Hs.
  - unfold own_events in *.
    change (retrying :: outside_calls false ev1 = [retrying]).
    now rewrite Hown.
Qed.

(** At most [max_attempts - attempts] more calls. *)
Lemma retry_run_calls_le code attempts st o :
  retry_run env p max_attempts code attempts st o -> 0 <= attempts ->
  Z.of_nat (calls (events o)) <= Z.max 0 (max_attempts - attempts).
Proof.
  induction 1 as [code a st C | code a st st1 ev1 C E
                 | code a st c st1 ev1 o C E Hrun IH]; intros Ha.
  - simpl. lia.
  - destruct (loop_test_true _ _ C) as [_ Hlt].
    destruct (halt_events _ _ _ E) as (Hc & _).
    cbn [events]. fold retrying. rewrite Hc. lia.
  - destruct (loop_test_true _ _ C) as [_ Hlt].
    destruct (round_events _ _ _ _ _ E (retry_run_total _ _ _ _ Hrun))
      as (_ & Hc & _).
    fold retrying. rewrite Hc.
    rewrite next_attempt in IH by lia.
    specialize (IH ltac:(lia)). lia.
Qed.

(** A status followed by another call is bad. *)
Lemma retry_run_early_stop code attempts st o :
  retry_run env p max_attempts code attempts st o ->
  Forall bad_status
    (firstn (calls (events o)) (code :: statuses (events o))).
Proof.
  induction 1 as [code a st C | code a st st1 ev1 C E
                 | code a st c st1 ev1 o C E Hrun IH].
  - constructor.
  - destruct (loop_test_true _ _ C) as [Hbad _].
    destruct (halt_events _ _ _ E) as (Hc & Hs & _).
    cbn [events]. fold retrying. rewrite Hc, Hs.
    repeat constructor. exact Hbad.
  - destruct (loop_test_true _ _ C) as [Hbad _].
    destruct (round_events _ _ _ _ _ E (retry_run_total _ _ _ _ Hrun))
      as (_ & Hc & Hs & _).
    fold retrying. rewrite Hc, Hs. cbn [firstn].
    constructor; assumption.
Qed.

(** A loop left on a bad status has used every attempt. *)
Lemma retry_run_exhausted code attempts st o :
  retry_run env p max_attempts code attempts st o -> 0 <= attempts ->
  result o = Some tt ->
  bad_status (last (statuses (events o)) code) ->
  Z.of_nat (calls (events o)) = Z.max 0 (max_attempts - attempts).
Proof.
  induction 1 as [code a st C | code a st st1 ev1 C E
                 | code a st c st1 ev1 o C E Hrun IH];
    intros Ha Hres Hlast.
  - cbn in Hlast. unfold bad_status in Hlast. rewrite Hlast in C.
    cbn in C. apply Z.ltb_ge in C. simpl. lia.
  - discriminate.
  - destruct (loop_test_true _ _ C) as [_ Hlt].
    destruct (round_events _ _ _ _ _ E (retry_run_total _ _ _ _ Hrun))
      as (_ & Hc & Hs & _).
    fold retrying in Hlast |- *. rewrite Hc. rewrite Hs in Hlast.
    rewrite last_cons_default in Hlast.
    rewrite result_prepend in Hres.
    rewrite next_attempt in IH by lia.
    specialize (IH ltac:(lia) Hres Hlast). lia.
Qed.

(** The loop itself only prints the retry notice, once per call. *)
Lemma retry_run_own_events code attempts st o :
  retry_run env p max_attempts code attempts st o ->
  own_events (events o) = repeat retrying (calls (events o)).
Proof.
  induction 1 as [code a st C | code a st st1 ev1 C E
                 | code a st c st1 ev1 o C E Hrun IH].
  - reflexivity.
  - destruct (halt_events _ _ _ E) as (Hc & _ & Hown).
    cbn [events]. fold retrying. now rewrite Hc, Hown.
  - destruct (round_events _ _ _ _ _ E (retry_run_total _ _ _ _ Hrun))
      as (_ & Hc & _ & Hown).
    fold retrying. rewrite Hc, Hown, IH. reflexivity.
Qed.

(** Every call but a halted last one returned a status. *)
Lemma retry_run_statuses code attempts st o :
  retry_run env p max_attempts code attempts st o ->
  match result o with
  | Some _ => List.length (statuses (events o)) = calls (events o)
  | None => S (List.length (statuses (events o))) = calls (events o)
  end.
Proof.
  induction 1 as [code a st C | code a st st1 ev1 C E
                 | code a st c st1 ev1 o C E Hrun IH].
  - reflexivity.
  - destruct (halt_events _ _ _ E) as (Hc & Hs & _).
    cbn [events result]. fold retrying. now rewrite Hc, Hs.
  - destruct (round_events _ _ _ _ _ E (retry_run_total _ _ _ _ Hrun))
      as (_ & Hc & Hs & _).
    rewrite result_prepend. fold retrying. rewrite Hc, Hs. cbn [List.length].
    destruct (result o); now rewrite IH.
Qed.


(** The relation is a function of its inputs. *)
Lemma retry_run_deterministic code attempts st o1 o2 :
  retry_run env p max_attempts code attempts st o1 ->
  retry_run env p max_attempts code attempts st o2 -> o1 = o2.
Proof.
  intros H1. revert o2.
  induction H1 as [code a st C | code a st st1 ev1 C E
                  | code a st c st1 ev1 o C E Hrun IH];
    intros o2 H2; inversion H2; subst; try congruence.
  match goal with
  | H : send_data env p st = Returned ?c' ?st' ?ev' |- _ =>
      rewrite E in H; inversion H; subst
  end.
  f_equal. now apply IH.
Qed.

End RetryLoop.

(** ** The retrying sender *)

Lemma loop_fuel_value : Z.of_nat loop_fuel = 1000.
Proof. reflexivity. Qed.

(** The first call, then a run of the retry loop entered with
    [attempts = 1]. *)
Lemma send_data_attempts_cases env p max_attempts st :
  0 <= max_attempts < 256 ->
  (exists st1 ev1,
      send_data env p st = Halted st1 ev1
      /\ send_data_attempts env p max_attempts st = Halted st1 ev1)
  \/ (exists c st1 ev1 o,
      send_data env p st = Returned c st1 ev1
      /\ retry_run env p max_attempts c 1 st1 o
      /\ send_data_attempts env p max_attempts st = prepend ev1 o).
Proof.
  intros Hmax.
  unfold send_data_attempts, send_data_attempts_fuel, bind.
  destruct (send_data env p st) as [c st1 ev1 | st1 ev1 |] eqn:E.
  - right. exists c, st1, ev1. eexists. repeat split.
    apply retry_loop_run; [assumption | lia |].
    rewrite loop_fuel_value. lia.
  - left. now exists st1, ev1.
  - now destruct (send_data_total env p st).
Qed.

(** Any fuel from 256 on gives the run of [send_data_attempts]. *)
Lemma send_data_attempts_fuel_enough env p max_attempts st fuel :
  0 <= max_attempts < 256 -> (256 <= fuel)%nat ->
  send_data_attempts_fuel env fuel p max_attempts st =
  send_data_attempts env p max_attempts st.
Proof.
  intros Hmax Hfuel.
  unfold send_data_attempts, send_data_attempts_fuel, bind.
  destruct (send_data env p st) as [c st1 ev1 | st1 ev1 |]; try reflexivity.
  f_equal.
  apply retry_run_deterministic with (env := env) (p := p)
    (max_attempts := max_attempts) (code := c) (attempts := 1) (st := st1);
    apply retry_loop_run; try assumption; try lia.
  rewrite loop_fuel_value. lia.
Qed.

(** Splits a run of [send_data_attempts] into its first call and the
    loop, and names what each contributes to the trace. *)
Ltac split_attempts env p max_attempts st Hmax :=
  let c := fresh "c" in
  let st1 := fresh "st1" in
  let ev1 := fresh "ev1" in
  let o := fresh "o" in
  let E := fresh "E" in
  let Hrun := fresh "Hrun" in
  let Heq := fresh "Heq" in
  destruct (send_data_attempts_cases env p max_attempts st Hmax)
    as [(st1 & ev1 & E & Heq) | (c & st1 & ev1 & o & E & Hrun & Heq)];
  rewrite Heq; clear Heq;
  [ destruct (send_data_halted _ _ _ _ _ E) as (?Ht & ?Hc & ?Hs & ?Hown & ?Hsos)
  | destruct (send_data_returned _ _ _ _ _ _ E)
      as (?Ht & ?Hc & ?Hs & ?Hown & ?Hin);
    pose proof (retry_run_total _ _ _ _ _ _ _ Hrun) as ?Htot;
    try rewrite (events_prepend ev1 o) by assumption;
    try rewrite result_prepend; try rewrite final_state_prepend;
    try rewrite !calls_app; try rewrite !statuses_app;
    try (unfold own_events; rewrite !outside_calls_app;
         fold (own_events ev1); fold (own_events (events o)));
    repeat match goal with
           | H : calls ev1 = _ |- _ => rewrite !H
           | H : statuses ev1 = _ |- _ => rewrite !H
           | H : own_events ev1 = _ |- _ => rewrite !H
           | H : inside_after false ev1 = _ |- _ => rewrite !H
           end ].

Section Attempts.

Variable env : Env.
Variable p : string.
Variable max_attempts : Z.
Variable st : State.
Hypothesis max_range : 0 <= max_attempts < 256.

Let o := send_data_attempts env p max_attempts st.

Lemma send_data_attempts_total : o <> OutOfFuel.
Proof.
  unfold o. split_attempts env p max_attempts st max_range.
  - discriminate.
  - now apply prepend_total.
Qed.

Lemma send_data_attempts_first :
  exists rest, events o = events (send_data env p st) ++ rest.
Proof.
  unfold o. split_attempts env p max_attempts st max_range.
  - exists []. rewrite E. cbn. now rewrite app_nil_r.
  - rewrite E. now exists (events o0).
Qed.

Lemma send_data_attempts_calls :
  (1 <= calls (events o))%nat
  /\ Z.of_nat (calls (events o)) <= Z.max 1 max_attempts.
Proof.
  unfold o. split_attempts env p max_attempts st max_range.
  - cbn [events]. rewrite Hc. lia.
  - pose proof (retry_run_calls_le _ _ _ max_range _ _ _ _ Hrun). lia.
Qed.

Lemma send_data_attempts_early_stop :
  Forall bad_status
    (firstn (calls (events o) - 1) (statuses (events o))).
Proof.
  unfold o. split_attempts env p max_attempts st max_range.
  - cbn [events]. rewrite Hc. constructor.
  - cbn [app]. rewrite (Nat.add_comm 1), Nat.add_sub.
    now apply retry_run_early_stop with (env := env) (p := p)
      (max_attempts := max_attempts) (attempts := 1) (st := st1).
Qed.

Lemma send_data_attempts_exhausted_calls :
  result o = Some tt ->
  bad_status (last (statuses (events o)) 0) ->
  Z.of_nat (calls (events o)) = Z.max 1 max_attempts.
Proof.
  unfold o. split_attempts env p max_attempts st max_range.
  - discriminate.
  - cbn [app]. rewrite last_cons_default. intros Hres Hlast.
    pose proof (retry_run_exhausted _ _ _ max_range _ _ _ _ Hrun
                  ltac:(lia) Hres Hlast).
    lia.
Qed.

Lemma send_data_attempts_own_events :
  own_events (events o) = repeat retrying (calls (events o) - 1).
Proof.
  unfold o. split_attempts env p max_attempts st max_range.
  - cbn [events]. now rewrite Hc, Hown.
  - cbn [app]. rewrite (Nat.add_comm 1), Nat.add_sub.
    now apply retry_run_own_events with (env := env) (p := p)
      (max_attempts := max_attempts) (code := c) (attempts := 1)
      (st := st1).
Qed.

Lemma send_data_attempts_statuses :
  match result o with
  | Some _ => List.length (statuses (events o)) = calls (events o)
  | None => S (List.length (statuses (events o))) = calls (events o)
  end.
Proof.
  unfold o. split_attempts env p max_attempts st max_range.
  - cbn [events result]. now rewrite Hc, Hs.
  - cbn [Nat.add app List.length].
    pose proof (retry_run_statuses _ _ _ _ _ _ _ Hrun) as H.
    destruct (result o0); now rewrite H.
Qed.


End Attempts.

(** ** Claims on the single-shot sender *)

Ltac finish_case :=
  repeat match goal with
         | |- _ /\ _ => split
         | |- _ <-> _ => split
         | |- _ -> _ => intro
         end;
  try congruence; try discriminate; try reflexivity;
  try (eexists; reflexivity);
  try (cbn; tauto);
  try match goal with
      | H : count _ _ = _ |- _ => now vm_compute in H
      end.

(** With [T1C] non-zero at entry the sender prints its error line and
    calls [sos_mode] before anything else, and has no return of its
    own on that path: when [sos_mode] blocks, the run ends there with
    no client built, no [https.begin] and no POST; when [sos_mode]
    returns, the sender goes on to build the client and open the
    connection. *)
Lemma send_data_interrupt_flag_set env p st :
  T1C st <> 0 ->
  let o := send_data env p st in
  (exists rest,
      events o = [ECall p; ESerialPrintln msg_interrupt; ESosMode] ++ rest)
  /\ (sos_returns env = false ->
      o = Halted (set_T1C (sos_T1C env (T1C st)) st)
            [ECall p; ESerialPrintln msg_interrupt; ESosMode])
  /\ (sos_returns env = true ->
      exists rest,
        events o =
        [ECall p; ESerialPrintln msg_interrupt; ESosMode; EClientNew;
         EHttpClientNew; EClientSetInsecure; EClientSetTimeout 50000;
         EHttpsBegin url (begin_answers env (begins st))] ++ rest)
  /\ (count is_network (events o) = 0%nat <-> sos_returns env = false).
Proof.
  intros HT. apply Z.eqb_neq in HT. cbv zeta.
  run_send_data env st; try congruence; finish_case.
Qed.

(** With [T1C = 1] and a blocking [sos_mode] the run ends inside it. *)
Example send_data_interrupt_flag_set_blocked :
  send_data env_200_sos_blocks "{}" st_T1C_set =
  Halted st_T1C_set [ECall "{}"; ESerialPrintln msg_interrupt; ESosMode].
Proof. reflexivity. Qed.





(** Were [sos_mode] to block instead, the sender would stay inside it:
    it calls [sos_mode], issues no POST and does not return. *)
Lemma send_data_begin_fails_blocked env p st :
  begin_answers env (begins st) = false ->
  sos_returns env = false ->
  let o := send_data env p st in
  count is_post (events o) = 0%nat
  /\ exists st1 evs, o = Halted st1 evs /\ last evs (ECall p) = ESosMode.
Proof.
  intros Hb Hs. cbv zeta.
  run_send_data env st; try congruence;
    (split; [reflexivity | do 2 eexists; split; reflexivity]).
Qed.

(** ** Claims on the retrying sender *)

Lemma send_data_sentinel env p st :
  begin_answers env (begins st) = false -> sos_returns env = true ->
  exists st1 ev1, send_data env p st = Returned (-1) st1 ev1.
Proof.
  intros Hb Hs. run_send_data env st; try congruence;
    do 2 eexists; reflexivity.
Qed.

(** When no connection ever opens and [sos_mode] returns, every round
    of the loop returns the sentinel. *)
Lemma retry_run_no_begin env p max_attempts code attempts st o :
  sos_returns env = true -> (forall k, begin_answers env k = false) ->
  retry_run env p max_attempts code attempts st o ->
  result o = Some tt
  /\ (last (statuses (events o)) code = code
      \/ last (statuses (events o)) code = -1).
Proof.
  intros Hsos Hb.
  induction 1 as [code a st C | code a st st1 ev1 C E
                 | code a st c st1 ev1 o C E Hrun IH].
  - split; [reflexivity | now left].
  - destruct (send_data_halted _ _ _ _ _ E) as (_ & _ & _ & _ & Hblock).
    congruence.
  - destruct IH as [Hres Hlast].
    pose proof (send_data_begin_false _ _ _ _ _ _ (Hb _) E) as Hc. subst c.
    destruct (round_events _ _ _ _ _ _ _ E
                (retry_run_total _ _ _ _ _ _ _ Hrun)) as (_ & _ & Hs & _).
    rewrite result_prepend. fold retrying. rewrite Hs, last_cons_default.
    split; [exact Hres | right]. now destruct Hlast.
Qed.

Lemma send_data_attempts_no_begin env p max_attempts st :
  0 <= max_attempts < 256 ->
  sos_returns env = true -> (forall k, begin_answers env k = false) ->
  let o := send_data_attempts env p max_attempts st in
  result o = Some tt /\ last (statuses (events o)) 0 = -1.
Proof.
  intros Hmax Hsos Hb. cbv zeta.
  split_attempts env p max_attempts st Hmax.
  - congruence.
  - pose proof (send_data_begin_false _ _ _ _ _ _ (Hb _) E) as Hc1.
    subst c. cbn [app]. rewrite last_cons_default.
    destruct (retry_run_no_begin _ _ _ _ _ _ _ Hsos Hb Hrun) as [Hres Hl].
    split; [exact Hres | now destruct Hl].
Qed.

(** C1, as the code has it: the first call is made whatever
    [max_attempts] is, so the number of single-shot calls is at least 1
    and at most [max 1 max_attempts]; a status that is followed by
    another call is bad (the loop stops at the first status that is
    not); the counter starts at 1, so a run left on a bad status has
    made exactly [max 1 max_attempts] calls; and for the answers 500,
    500, 500, 200 with [max_attempts = 4] there are exactly 4 calls,
    the last one returning 200. *)
Theorem send_data_attempts_bounded env p max_attempts st :
  0 <= max_attempts < 256 ->
  let o := send_data_attempts env p max_attempts st in
  let evs := events o in
  o <> OutOfFuel
  /\ (1 <= calls evs)%nat
  /\ Z.of_nat (calls evs) <= Z.max 1 max_attempts
  /\ Forall bad_status (firstn (calls evs - 1) (statuses evs))
  /\ (result o = Some tt -> bad_status (last (statuses evs) 0) ->
      Z.of_nat (calls evs) = Z.max 1 max_attempts)
  /\ calls (events (send_data_attempts env_500x3_200 "{}" 4 st0)) = 4%nat
  /\ statuses (events (send_data_attempts env_500x3_200 "{}" 4 st0))
     = [500; 500; 500; 200]
  /\ result (send_data_attempts env_500x3_200 "{}" 4 st0) = Some tt.
Proof.
  intros Hmax o evs. subst evs o.
  split; [now apply send_data_attempts_total|].
  split; [now apply send_data_attempts_calls|].
  split; [now apply send_data_attempts_calls|].
  split; [now apply send_data_attempts_early_stop|].
  split; [now apply send_data_attempts_exhausted_calls|].
  repeat split; vm_compute; reflexivity.
Qed.

(** C1, the claim as stated fails: with [max_attempts = 0] one
    single-shot call is made, more than [max_attempts]. *)
Lemma send_data_attempts_zero_budget :
  calls (events (send_data_attempts env_500 "{}" 0 st0)) = 1%nat
  /\ ~ Z.of_nat (calls (events (send_data_attempts env_500 "{}" 0 st0))) <= 0.
Proof.
  assert (H : calls (events (send_data_attempts env_500 "{}" 0 st0)) = 1%nat)
    by (vm_compute; reflexivity).
  split; [exact H | rewrite H; lia].
Qed.

(** Two attempts allowed against a server that answers 500: two calls
    at most. *)
Lemma send_data_attempts_bounded_witness :
  0 <= 2 < 256
  /\ Z.of_nat (calls (events (send_data_attempts env_500x3_200 "{}" 2 st0)))
     <= Z.max 1 2.
Proof.
  assert (H : 0 <= 2 < 256) by lia.
  split; [exact H|].
  apply (send_data_attempts_bounded env_500x3_200 "{}" 2 st0 H).
Defined.

(** C6, as the code has it: when every single-shot call returns, and
    returns a bad status, the two-argument [send_data] returns
    normally after exactly [max 1 max_attempts] calls (3 calls for 500
    every time and [max_attempts = 3]), its result carries no status,
    and what the retry loop does itself is printing the retry notice
    once per retry: it never calls [sos_mode]. *)
Theorem send_data_attempts_exhausted env p max_attempts st :
  0 <= max_attempts < 256 ->
  let o := send_data_attempts env p max_attempts st in
  let evs := events o in
  List.length (statuses evs) = calls evs ->
  Forall bad_status (statuses evs) ->
  (exists st', o = Returned tt st' evs)
  /\ Z.of_nat (calls evs) = Z.max 1 max_attempts
  /\ own_events evs = repeat retrying (calls evs - 1)
  /\ count is_sos (own_events evs) = 0%nat.
Proof.
  intros Hmax o evs Hlen Hbad.
  pose proof (send_data_attempts_total env p max_attempts st Hmax) as Htot.
  pose proof (send_data_attempts_statuses env p max_attempts st Hmax) as Hst.
  pose proof (send_data_attempts_own_events env p max_attempts st Hmax)
    as Hown.
  pose proof (send_data_attempts_calls env p max_attempts st Hmax)
    as [Hone _].
  fold o in Htot, Hst, Hown, Hone. fold evs in Hst, Hown, Hone.
  assert (Hres : result o = Some tt).
  { destruct o as [[] st' ev | st' ev |]; cbn in *;
      [reflexivity | lia | congruence]. }
  split; [|split; [|split]].
  - subst evs. destruct o as [[] st' ev | st' ev |]; try discriminate.
    now exists st'.
  - apply send_data_attempts_exhausted_calls; try assumption.
    fold o. fold evs.
    apply Forall_last; [exact Hbad|].
    intros Hnil. rewrite Hnil in Hlen. cbn in Hlen. lia.
  - exact Hown.
  - rewrite Hown. clear. induction (calls evs - 1)%nat; [reflexivity|].
    exact IHn.
Qed.

(** C6, the claim as stated fails: with [max_attempts = 0] and 500
    every time, the call returns normally after one single-shot call,
    not after [max_attempts] of them. *)
Lemma send_data_attempts_exhausted_zero_budget :
  Forall bad_status (statuses (events (send_data_attempts env_500 "{}" 0 st0)))
  /\ result (send_data_attempts env_500 "{}" 0 st0) = Some tt
  /\ calls (events (send_data_attempts env_500 "{}" 0 st0)) = 1%nat
  /\ Z.of_nat (calls (events (send_data_attempts env_500 "{}" 0 st0))) <> 0.
Proof.
  assert (H : calls (events (send_data_attempts env_500 "{}" 0 st0)) = 1%nat)
    by (vm_compute; reflexivity).
  split; [vm_compute; repeat constructor|].
  split; [vm_compute; reflexivity|].
  split; [exact H | rewrite H; lia].
Qed.

(** 500 every time with [max_attempts = 3]: three calls, no [sos_mode]. *)
Lemma send_data_attempts_exhausted_witness :
  0 <= 3 < 256
  /\ Forall bad_status
       (statuses (events (send_data_attempts env_500 "{}" 3 st0)))
  /\ Z.of_nat (calls (events (send_data_attempts env_500 "{}" 3 st0)))
     = Z.max 1 3
  /\ count is_sos (events (send_data_attempts env_500 "{}" 3 st0)) = 0%nat.
Proof.
  assert (H : 0 <= 3 < 256) by lia.
  assert (Hbad : Forall bad_status
            (statuses (events (send_data_attempts env_500 "{}" 3 st0))))
    by (vm_compute; repeat constructor).
  split; [exact H|]. split; [exact Hbad|]. split.
  - apply (send_data_attempts_exhausted env_500 "{}" 3 st0 H);
      [reflexivity | exact Hbad].
  - reflexivity.
Defined.

(** C8: the first single-shot call is made before [max_attempts] is
    looked at: its events open the trace for every [max_attempts], and
    for [max_attempts] 0 or 1 it is the only call, the whole run being
    that one call with its status dropped. *)
Theorem send_data_attempts_first_call env p max_attempts st :
  0 <= max_attempts < 256 ->
  let o := send_data_attempts env p max_attempts st in
  (exists rest, events o = events (send_data env p st) ++ rest)
  /\ (max_attempts <= 1 ->
      calls (events o) = 1%nat
      /\ o = (send_data env p ;; ret tt) st).
Proof.
  intros Hmax o. split.
  - now apply send_data_attempts_first.
  - intros Hle. split.
    + pose proof (send_data_attempts_calls env p max_attempts st Hmax)
        as [Hone Hcalls].
      fold o in Hone, Hcalls. lia.
    + unfold o, bind, ret.
      split_attempts env p max_attempts st Hmax; rewrite E; [reflexivity|].
      inversion Hrun as [? ? ? C | ? ? ? ? ? C | ? ? ? ? ? ? ? C]; subst;
        try reflexivity;
        apply andb_true_iff in C; destruct C as [_ C];
        apply Z.ltb_lt in C; lia.
Qed.

(** [max_attempts = 0]: one call all the same. *)
Lemma send_data_attempts_first_call_witness :
  0 <= 0 < 256
  /\ calls (events (send_data_attempts env_500 "{}" 0 st0)) = 1%nat.
Proof.
  assert (H : 0 <= 0 < 256) by lia.
  split; [exact H|].
  apply (send_data_attempts_first_call env_500 "{}" 0 st0 H). lia.
Defined.

(** C9: -1 is a bad status, so when [https.begin] fails and the
    single-shot sender returns the sentinel -1, the two-argument
    [send_data] with [max_attempts > 1] prints the retry notice and
    calls the sender again; when no connection ever opens it goes on
    until [max_attempts] calls are made. *)
Theorem send_data_attempts_retries_sentinel env p max_attempts st :
  begin_answers env (begins st) = false ->
  sos_returns env = true ->
  1 < max_attempts < 256 ->
  is_bad_http_code (-1) = true
  /\ (exists st1 ev1,
        send_data env p st = Returned (-1) st1 ev1
        /\ exists rest,
            events (send_data_attempts env p max_attempts st) =
            ev1 ++ retrying :: events (send_data env p st1) ++ rest)
  /\ ((forall k, begin_answers env k = false) ->
      Z.of_nat (calls (events (send_data_attempts env p max_attempts st)))
      = max_attempts).
Proof.
  intros Hb Hsos Hmax.
  assert (Hrange : 0 <= max_attempts < 256) by lia.
  split; [reflexivity|]. split.
  - destruct (send_data_sentinel env p st Hb Hsos) as (st1 & ev1 & E1).
    exists st1, ev1. split; [exact E1|].
    split_attempts env p max_attempts st Hrange;
      rewrite E1 in E; inversion E; subst.
    inversion Hrun as [? ? ? C | ? ? ? sth evh C E2
                      | ? ? ? cn stn evn o2 C E2 Hrun2]; subst.
    + cbn in C. apply Z.ltb_ge in C. lia.
    + exists []. rewrite E2. cbn [events]. now rewrite app_nil_r.
    + exists (events o2). rewrite E2. cbn [events].
      rewrite events_prepend
        by (eapply retry_run_total; eassumption).
      reflexivity.
  - intros Hall.
    destruct (send_data_attempts_no_begin env p max_attempts st
                Hrange Hsos Hall) as [Hres Hlast].
    rewrite (send_data_attempts_exhausted_calls env p max_attempts st
               Hrange Hres); [lia|].
    rewrite Hlast. reflexivity.
Qed.

(** No connection ever opens, [max_attempts = 3]: three calls. *)
Lemma send_data_attempts_retries_sentinel_witness :
  begin_answers env_no_begin (begins st0) = false
  /\ sos_returns env_no_begin = true
  /\ 1 < 3 < 256
  /\ Z.of_nat (calls (events (send_data_attempts env_no_begin "{}" 3 st0)))
     = 3.
Proof.
  assert (Hb : begin_answers env_no_begin (begins st0) = false)
    by reflexivity.
  assert (Hs : sos_returns env_no_begin = true) by reflexivity.
  assert (Hm : 1 < 3 < 256) by lia.
  split; [exact Hb|]. split; [exact Hs|]. split; [exact Hm|].
  apply (send_data_attempts_retries_sentinel env_no_begin "{}" 3 st0
           Hb Hs Hm).
  reflexivity.
Defined.

(** ** The WiFi connector *)

Lemma wl_eqb_connected (s : wl_status_t) :
  wl_eqb s WL_CONNECTED = true <-> s = WL_CONNECTED.
Proof. destruct s; cbn; split; congruence. Qed.

(** The polling loop entered with [attempts] in 0..10: it ends, after
    at most [11 - attempts] delays; every reading before the last one
    it took was not connected; it leaves either on a connected reading
    or, after the delay that takes [attempts] past 10, by [break]. *)
Lemma wifi_loop_spec env : forall fuel attempts st,
  0 <= attempts <= 10 -> 11 - attempts <= Z.of_nat fuel ->
  exists evs,
    wifi_loop env fuel attempts st =
      Returned tt
        (mkState (T1C st) (wifi_reads st + status_reads evs) (begins st)
           (posts st)) evs
    /\ Z.of_nat (delays evs) <= 11 - attempts
    /\ Z.of_nat (status_reads evs) <= 11 - attempts
    /\ (forall k, (k < delays evs)%nat ->
          wifi_readings env (wifi_reads st + k) <> WL_CONNECTED)
    /\ ((status_reads evs = S (delays evs)
         /\ wifi_readings env (wifi_reads st + delays evs) = WL_CONNECTED)
        \/ (status_reads evs = delays evs
            /\ Z.of_nat (delays evs) = 11 - attempts))
    /\ Forall delay_is_1s evs.
Proof.
  induction fuel as [|fuel IH]; intros attempts st Ha Hfuel.
  - change (Z.of_nat 0) with 0 in Hfuel. lia.
  - cbn [wifi_loop]. unfold bind at 1, WiFi_status.
    destruct (wl_eqb (wifi_readings env (wifi_reads st)) WL_CONNECTED)
      eqn:Hs; cbn [negb].
    + apply wl_eqb_connected in Hs.
      exists [EWiFiStatus (wifi_readings env (wifi_reads st))].
      change (status_reads [EWiFiStatus (wifi_readings env (wifi_reads st))])
        with 1%nat.
      change (delays [EWiFiStatus (wifi_readings env (wifi_reads st))])
        with 0%nat.
      rewrite Nat.add_1_r, Nat.add_0_r.
      split; [reflexivity|]. split; [lia|]. split; [lia|].
      split; [intros k Hk; lia|]. split; [left; now split|].
      repeat constructor. discriminate.
    + assert (Hnc : wifi_readings env (wifi_reads st) <> WL_CONNECTED).
      { intros H. apply wl_eqb_connected in H. congruence. }
      rewrite (Z.mod_small (attempts + 1)) by lia.
      unfold Serial_print, delay, Serial_println, bind, emit.
      destruct (10 <? attempts + 1) eqn:Hbrk.
      * apply Z.ltb_lt in Hbrk.
        exists [EWiFiStatus (wifi_readings env (wifi_reads st));
                ESerialPrint "."; EDelay 1000;
                ESerialPrintln msg_wifi_failed].
        match goal with
        | |- context [status_reads ?l] =>
            change (status_reads l) with 1%nat
        end.
        match goal with
        | |- context [delays ?l] => change (delays l) with 1%nat
        end.
        rewrite Nat.add_1_r.
        split; [reflexivity|]. split; [lia|]. split; [lia|].
        split; [|split].
        -- intros k Hk. replace k with 0%nat by lia.
           now rewrite Nat.add_0_r.
        -- right. split; [reflexivity | lia].
        -- repeat constructor; unfold delay_is_1s; cbn; congruence.
      * apply Z.ltb_ge in Hbrk.
        destruct (IH (attempts + 1) (next_wifi st)) as
          (evs & Hrun & Hd & Hr & Hmiss & Hexit & Hms); [lia | lia |].
        rewrite Hrun.
        exists ([EWiFiStatus (wifi_readings env (wifi_reads st));
                 ESerialPrint "."; EDelay 1000] ++ evs).
        cbn [prepend app next_wifi T1C wifi_reads begins posts].
        change (status_reads (EWiFiStatus (wifi_readings env (wifi_reads st))
                  :: ESerialPrint "." :: EDelay 1000 :: evs))
          with (S (status_reads evs)).
        change (delays (EWiFiStatus (wifi_readings env (wifi_reads st))
                  :: ESerialPrint "." :: EDelay 1000 :: evs))
          with (S (delays evs)).
        cbn [next_wifi wifi_reads] in Hmiss, Hexit.
        rewrite Nat.add_succ_r.
        split; [reflexivity|]. split; [lia|]. split; [lia|].
        split; [|split].
        -- intros [|k] Hk; [now rewrite Nat.add_0_r|].
           rewrite Nat.add_succ_r. apply Hmiss. lia.
        -- destruct Hexit as [[He Hc] | [He Hc]]; [left | right];
             (split; [now rewrite He |]).
           ++ now rewrite Nat.add_succ_r.
           ++ lia.
        -- repeat constructor; try exact Hms;
             unfold delay_is_1s; cbn; congruence.
Qed.

(** Fuel beyond what the loop needs changes nothing. *)
Lemma wifi_loop_fuel env : forall fuel fuel' attempts st,
  0 <= attempts <= 10 ->
  11 - attempts <= Z.of_nat fuel -> 11 - attempts <= Z.of_nat fuel' ->
  wifi_loop env fuel attempts st = wifi_loop env fuel' attempts st.
Proof.
  induction fuel as [|fuel IH]; intros fuel' attempts st Ha H H'.
  - change (Z.of_nat 0) with 0 in H. lia.
  - destruct fuel' as [|fuel']; [change (Z.of_nat 0) with 0 in H'; lia|].
    cbn [wifi_loop].
    unfold bind, WiFi_status, Serial_print, delay, Serial_println, emit.
    destruct (wl_eqb (wifi_readings env (wifi_reads st)) WL_CONNECTED);
      cbn [negb]; [reflexivity|].
    rewrite (Z.mod_small (attempts + 1)) by lia.
    destruct (10 <? attempts + 1) eqn:Hbrk; [reflexivity|].
    apply Z.ltb_ge in Hbrk.
    now rewrite (IH fuel' (attempts + 1) (next_wifi st)) by lia.
Qed.

(** The whole connector, for any fuel from 11 on. *)
Lemma initialize_wifi_fuel_run env st fuel :
  (11 <= fuel)%nat ->
  exists evl,
    let last_read :=
      wifi_readings env (wifi_reads st + status_reads evl) in
    let b := wl_eqb last_read WL_CONNECTED in
    initialize_wifi_fuel env fuel st =
      Returned b
        (mkState (T1C st) (S (wifi_reads st + status_reads evl)) (begins st)
           (posts st))
        ([EWiFiMode WIFI_STA; EWiFiBegin ssid password;
          ESerialPrint msg_connecting]
         ++ evl
         ++ [EWiFiStatus last_read;
             ESerialPrintln
               (if b then msg_wifi_connected else msg_wifi_failed)])
    /\ (delays evl <= 11)%nat
    /\ (status_reads evl <= 11)%nat
    /\ (forall k, (k < delays evl)%nat ->
          wifi_readings env (wifi_reads st + k) <> WL_CONNECTED)
    /\ ((status_reads evl = S (delays evl)
         /\ wifi_readings env (wifi_reads st + delays evl) = WL_CONNECTED)
        \/ (status_reads evl = delays evl /\ delays evl = 11%nat))
    /\ Forall delay_is_1s evl.
Proof.
  intros Hfuel.
  destruct (wifi_loop_spec env fuel 0 st) as
    (evl & Hrun & Hd & Hr & Hmiss & Hexit & Hms); [lia | lia |].
  exists evl. cbv zeta. split; [|split; [|split; [|split; [|split]]]].
  - unfold initialize_wifi_fuel, WiFi_mode, WiFi_begin, Serial_print.
    unfold bind at 1, emit. unfold bind at 1. unfold bind at 1.
    unfold bind at 1. rewrite Hrun.
    unfold bind, WiFi_status, Serial_println, emit, ret.
    cbn [wifi_reads T1C begins posts next_wifi].
    destruct (wl_eqb (wifi_readings env (wifi_reads st + status_reads evl))
                WL_CONNECTED);
      cbn [prepend app]; rewrite ?app_nil_r; reflexivity.
  - lia.
  - lia.
  - exact Hmiss.
  - destruct Hexit as [H | [H1 H2]]; [now left | right]. split; [exact H1|lia].
  - exact Hms.
Qed.

Lemma initialize_wifi_fuel_enough env st fuel :
  (11 <= fuel)%nat ->
  initialize_wifi_fuel env fuel st = initialize_wifi env st.
Proof.
  intros Hfuel. unfold initialize_wifi, initialize_wifi_fuel.
  unfold WiFi_mode, WiFi_begin, Serial_print, bind, emit.
  now rewrite (wifi_loop_fuel env fuel loop_fuel 0 st)
    by (rewrite ?loop_fuel_value; lia).
Qed.

(** What the connector adds around the events of its loop. *)
Lemma connector_counts (evl : list Event) (s : wl_status_t) (m : string) :
  let evs :=
    [EWiFiMode WIFI_STA; EWiFiBegin ssid password;
     ESerialPrint msg_connecting] ++ evl ++ [EWiFiStatus s; ESerialPrintln m]
  in
  delays evs = delays evl
  /\ status_reads evs = S (status_reads evl)
  /\ (Forall delay_is_1s evl -> Forall delay_is_1s evs).
Proof.
  cbv zeta. unfold delays, status_reads.
  rewrite !count_app. cbn [app]. repeat split.
  - unfold count. cbn. lia.
  - unfold count at 1 3. cbn. lia.
  - intros H. repeat constructor; try discriminate.
    apply Forall_app. split; [exact H|].
    repeat constructor; discriminate.
Qed.

(** ** Claims on the WiFi connector *)

(** C3, as the code has it: for every sequence of status readings
    [initialize_wifi] returns.  Its loop reads the status at most 11
    times and waits one second after each of those readings that is not
    connected, so there are at most 11 delays, each of 1000 ms; after
    the loop the status is read once more (at most 12 readings in all)
    and the result is true exactly when that last reading is connected.
    When a connected status stays connected, the result is true exactly
    when one of the first 12 readings is connected. *)
Theorem initialize_wifi_polls env st :
  let r := fun k => wifi_readings env (wifi_reads st + k) in
  exists b st' evs,
    initialize_wifi env st = Returned b st' evs
    /\ (delays evs <= 11)%nat
    /\ Forall delay_is_1s evs
    /\ wifi_reads st' = (wifi_reads st + status_reads evs)%nat
    /\ (delays evs + 1 <= status_reads evs <= delays evs + 2)%nat
    /\ (status_reads evs <= 12)%nat
    /\ (forall k, (k < delays evs)%nat -> r k <> WL_CONNECTED)
    /\ (b = true <-> r (status_reads evs - 1)%nat = WL_CONNECTED)
    /\ ((forall k, r k = WL_CONNECTED -> r (S k) = WL_CONNECTED) ->
        (b = true <-> exists k, (k < 12)%nat /\ r k = WL_CONNECTED)).
Proof.
  intros r.
  destruct (initialize_wifi_fuel_run env st loop_fuel) as
    (evl & Hrun & Hd & Hr & Hmiss & Hexit & Hms).
  { apply Nat2Z.inj_le. rewrite loop_fuel_value. simpl. lia. }
  cbv zeta in Hrun. fold (initialize_wifi env st) in Hrun.
  fold (r (status_reads evl)) in Hrun.
  destruct (connector_counts evl (r (status_reads evl))
              (if wl_eqb (r (status_reads evl)) WL_CONNECTED
               then msg_wifi_connected else msg_wifi_failed))
    as (Hcd & Hcr & Hcms).
  do 3 eexists. split; [exact Hrun|].
  rewrite Hcd, Hcr.
  split; [exact Hd|]. split; [now apply Hcms|].
  split; [cbn; lia|].
  split; [destruct Hexit as [[He _] | [He _]]; lia|].
  split; [lia|].
  split; [exact Hmiss|].
  assert (Hlast : wl_eqb (r (status_reads evl)) WL_CONNECTED = true
                  <-> r (status_reads evl) = WL_CONNECTED)
    by apply wl_eqb_connected.
  split.
  - cbn [Nat.sub]. now rewrite Nat.sub_0_r.
  - intros Hsticky. rewrite Hlast. split.
    + intros Hc. exists (status_reads evl). split; [lia | exact Hc].
    + intros (k & Hk & Hc).
      destruct Hexit as [[He Hcon] | [He Hd11]].
      * rewrite He. apply Hsticky. exact Hcon.
      * destruct (Nat.lt_ge_cases k (delays evl)) as [Hlt | Hge].
        -- now destruct (Hmiss k Hlt).
        -- replace (status_reads evl) with k by lia. exact Hc.
Qed.

(** C3, the claim as stated fails: when the access point is never
    reached the connector waits 11 times and reads the status 12
    times, not 10, before it returns false. *)
Lemma initialize_wifi_never_connected :
  delays (events (initialize_wifi env_never_connected st0)) = 11%nat
  /\ status_reads (events (initialize_wifi env_never_connected st0)) = 12%nat
  /\ result (initialize_wifi env_never_connected st0) = Some false.
Proof. repeat split; vm_compute; reflexivity. Qed.

(** The eleventh loop reading still counts: connected from the 11th
    reading on, the connector returns true after 10 delays. *)
Example initialize_wifi_connects_late :
  let env := mkEnv (fun k => if (k <? 10)%nat then WL_DISCONNECTED
                             else WL_CONNECTED)
               (fun _ => true) (fun _ => (200, EmptyString)) true
               (fun v => v) in
  delays (events (initialize_wifi env st0)) = 10%nat
  /\ status_reads (events (initialize_wifi env st0)) = 12%nat
  /\ result (initialize_wifi env st0) = Some true.
Proof. repeat split; vm_compute; reflexivity. Qed.

Lemma wifi_loop_connected env fuel attempts st :
  wifi_readings env (wifi_reads st) = WL_CONNECTED ->
  wifi_loop env (S fuel) attempts st =
  Returned tt (next_wifi st) [EWiFiStatus WL_CONNECTED].
Proof.
  intros H. cbn [wifi_loop]. unfold bind, WiFi_status, ret.
  rewrite H. reflexivity.
Qed.

(** C10, as the code has it: when the first status reading is
    connected the loop body does not run, so there is no delay; the
    status is then read a second time, and the connector returns true
    when that second reading is connected too (false when it is not). *)
Theorem initialize_wifi_already_connected env st :
  wifi_readings env (wifi_reads st) = WL_CONNECTED ->
  let second := wifi_readings env (S (wifi_reads st)) in
  let b := wl_eqb second WL_CONNECTED in
  initialize_wifi env st =
    Returned b (next_wifi (next_wifi st))
      [EWiFiMode WIFI_STA; EWiFiBegin ssid password;
       ESerialPrint msg_connecting; EWiFiStatus WL_CONNECTED;
       EWiFiStatus second;
       ESerialPrintln (if b then msg_wifi_connected else msg_wifi_failed)]
  /\ delays (events (initialize_wifi env st)) = 0%nat
  /\ (second = WL_CONNECTED -> result (initialize_wifi env st) = Some true)
  /\ (second <> WL_CONNECTED ->
      result (initialize_wifi env st) = Some false).
Proof.
  intros H second b.
  assert (Hrun : initialize_wifi env st =
    Returned b (next_wifi (next_wifi st))
      [EWiFiMode WIFI_STA; EWiFiBegin ssid password;
       ESerialPrint msg_connecting; EWiFiStatus WL_CONNECTED;
       EWiFiStatus second;
       ESerialPrintln (if b then msg_wifi_connected else msg_wifi_failed)]).
  { unfold initialize_wifi, initialize_wifi_fuel.
    change loop_fuel with (S (Nat.pred loop_fuel)).
    unfold WiFi_mode, WiFi_begin, Serial_print.
    unfold bind at 1, emit. unfold bind at 1. unfold bind at 1.
    unfold bind at 1. rewrite (wifi_loop_connected env _ 0 st H).
    unfold bind, WiFi_status, Serial_println, emit, ret.
    cbn [wifi_reads next_wifi]. fold second. fold b.
    destruct b; reflexivity. }
  rewrite Hrun. split; [reflexivity|]. split; [destruct b; reflexivity|].
  cbn [result]. split.
  - intros Hc. f_equal. now apply wl_eqb_connected.
  - intros Hc. f_equal. destruct b eqn:Hb; [|reflexivity].
    apply wl_eqb_connected in Hb. contradiction.
Qed.

(** C10, the claim as stated fails: the first reading is connected,
    the link is lost before the second one, and the connector returns
    false. *)
Lemma initialize_wifi_link_drops :
  wifi_readings env_link_drops (wifi_reads st0) = WL_CONNECTED
  /\ delays (events (initialize_wifi env_link_drops st0)) = 0%nat
  /\ result (initialize_wifi env_link_drops st0) = Some false.
Proof. repeat split. Qed.

(** Connected at both readings: true. *)
Lemma initialize_wifi_already_connected_witness :
  wifi_readings env_200 (wifi_reads st0) = WL_CONNECTED
  /\ result (initialize_wifi env_200 st0) = Some true.
Proof.
  assert (H : wifi_readings env_200 (wifi_reads st0) = WL_CONNECTED)
    by reflexivity.
  split; [exact H|].
  apply (initialize_wifi_already_connected env_200 st0 H).
  reflexivity.
Defined.

(** * Further properties of the code *)

(** ** One run of the single-shot sender *)

Lemma count_cons (f : Event -> bool) (e : Event) (l : list Event) :
  count f (e :: l) = ((if f e then 1 else 0) + count f l)%nat.
Proof. unfold count. cbn [filter]. now destruct (f e). Qed.

Lemma send_data_sender_events env p st :
  Forall (sender_event p) (events (send_data env p st)).
Proof.
  run_send_data env st; cbn [events];
    repeat constructor.
Qed.

(** Per run: as many POSTs, [https.end]s and delays as successful
    [https.begin]s, one client and one [setInsecure] per
    [https.begin], at most one POST. *)
Lemma send_data_counts env p st :
  let evs := events (send_data env p st) in
  count is_end evs = count is_post evs
  /\ count is_delay evs = count is_post evs
  /\ count is_begin_ok evs = count is_post evs
  /\ count is_client evs = count is_begin evs
  /\ count is_insecure evs = count is_begin evs
  /\ (count is_post evs <= count is_call evs)%nat
  /\ count is_wifi evs = 0%nat.
Proof.
  cbv zeta. run_send_data env st; cbn [events];
    repeat split; try reflexivity; vm_compute; repeat constructor.
Qed.

(** The counters of the state follow the trace; the WiFi readings are
    not consumed. *)
Lemma send_data_state env p st st' :
  final_state (send_data env p st) = Some st' ->
  wifi_reads st' = wifi_reads st
  /\ begins st' = (begins st + count is_begin (events (send_data env p st)))%nat
  /\ posts st' = (posts st + count is_post (events (send_data env p st)))%nat.
Proof.
  run_send_data env st; cbn [events final_state]; intros H;
    inversion H; subst; cbn [wifi_reads begins posts next_begin next_post];
    rewrite ?Nat.add_0_r, ?Nat.add_1_r; repeat split; reflexivity.
Qed.

(** X1: the single-shot sender returns [c] exactly when it is not
    stuck in [sos_mode] and [c] is the status of its POST (connection
    opened) or the sentinel -1 (connection not opened). *)
Theorem send_data_result env p st c :
  result (send_data env p st) = Some c <->
  (T1C st = 0 \/ sos_returns env = true)
  /\ (if begin_answers env (begins st)
      then c = fst (post_answers env (posts st))
      else sos_returns env = true /\ c = -1).
Proof.
  run_send_data env st; cbn [result];
    repeat match goal with
           | H : (_ =? _) = true |- _ => apply Z.eqb_eq in H
           | H : (_ =? _) = false |- _ => apply Z.eqb_neq in H
           end;
    (split; [intros H; inversion H; subst; auto
            | intros [[H1 | H1] H2]; try destruct H2; subst;
              try reflexivity; try congruence; try discriminate]).
Qed.

(** X2: the single-shot sender calls [sos_mode] exactly when [T1C] is
    non-zero or the connection does not open; a bad HTTP status alone
    never brings it to call [sos_mode]. *)
Theorem send_data_escalates_iff env p st :
  (0 < count is_sos (events (send_data env p st)))%nat <->
  T1C st <> 0 \/ begin_answers env (begins st) = false.
Proof.
  run_send_data env st; cbn [events];
    repeat match goal with
           | H : (_ =? _) = true |- _ => apply Z.eqb_eq in H
           | H : (_ =? _) = false |- _ => apply Z.eqb_neq in H
           end;
    (split; [intros H; vm_compute in H; auto; try lia
            | intros [H | H]; try congruence; try discriminate;
              vm_compute; lia]).
Qed.

(** ** Lifting facts on one run to the retrying sender *)

Section Lifting.

Variable env : Env.
Variable p : string.
Variable max_attempts : Z.
Hypothesis max_range : 0 <= max_attempts < 256.

(** The trace of the retrying sender is the trace of its first call
    followed by the trace of the retry loop. *)
Lemma send_data_attempts_split st :
  (exists st1 ev1,
      send_data env p st = Halted st1 ev1
      /\ send_data_attempts env p max_attempts st = Halted st1 ev1)
  \/ (exists c st1 ev1 o,
      send_data env p st = Returned c st1 ev1
      /\ retry_run env p max_attempts c 1 st1 o
      /\ events (send_data_attempts env p max_attempts st) = ev1 ++ events o
      /\ final_state (send_data_attempts env p max_attempts st)
         = final_state o
      /\ result (send_data_attempts env p max_attempts st) = result o).
Proof.
  destruct (send_data_attempts_cases env p max_attempts st max_range)
    as [(st1 & ev1 & E & Heq) | (c & st1 & ev1 & o & E & Hrun & Heq)].
  - left. now exists st1, ev1.
  - right. exists c, st1, ev1, o.
    pose proof (retry_run_total _ _ _ _ _ _ _ Hrun) as Htot.
    rewrite Heq, events_prepend, final_state_prepend, result_prepend
      by assumption.
    repeat split; assumption.
Qed.

(** The trace of one round of the loop. *)
Lemma retry_round_events st c st1 ev1 (o : Outcome unit) :
  send_data env p st = Returned c st1 ev1 -> o <> OutOfFuel ->
  events (prepend (ESerialPrintln msg_retrying :: ev1) o)
  = retrying :: events (send_data env p st) ++ events o.
Proof.
  intros E Ho. rewrite events_prepend by assumption. now rewrite E.
Qed.

Section Each.

Variable P : Event -> Prop.
Hypothesis P_retrying : P retrying.
Hypothesis P_call : forall st, Forall P (events (send_data env p st)).

Lemma retry_run_each code attempts st o :
  retry_run env p max_attempts code attempts st o -> Forall P (events o).
Proof.
  induction 1 as [code a st C | code a st st1 ev1 C E
                 | code a st c st1 ev1 o C E Hrun IH].
  - constructor.
  - cbn [events]. constructor; [exact P_retrying|].
    pose proof (P_call st) as H. now rewrite E in H.
  - rewrite (retry_round_events _ _ _ _ _ E)
      by (eapply retry_run_total; eassumption).
    constructor; [exact P_retrying|].
    apply Forall_app. split; [apply P_call | exact IH].
Qed.

Lemma send_data_attempts_each st :
  Forall P (events (send_data_attempts env p max_attempts st)).
Proof.
  destruct (send_data_attempts_split st)
    as [(st1 & ev1 & E & Heq) | (c & st1 & ev1 & o & E & Hrun & Hev & _)].
  - rewrite Heq. pose proof (P_call st) as H. now rewrite E in H.
  - rewrite Hev. apply Forall_app. split.
    + pose proof (P_call st) as H. now rewrite E in H.
    + eapply retry_run_each; eassumption.
Qed.

End Each.

Section Counting.

Variable R : nat -> nat -> Prop.
Variables f g : Event -> bool.
Hypothesis R_zero : R 0%nat 0%nat.
Hypothesis R_add : forall a b c d, R a b -> R c d -> R (a + c)%nat (b + d)%nat.
Hypothesis f_retrying : f retrying = false.
Hypothesis g_retrying : g retrying = false.
Hypothesis R_call : forall st,
  R (count f (events (send_data env p st)))
    (count g (events (send_data env p st))).

Lemma retry_run_counting code attempts st o :
  retry_run env p max_attempts code attempts st o ->
  R (count f (events o)) (count g (events o)).
Proof.
  induction 1 as [code a st C | code a st st1 ev1 C E
                 | code a st c st1 ev1 o C E Hrun IH].
  - exact R_zero.
  - cbn [events]. fold retrying.
    rewrite !count_cons, f_retrying, g_retrying. cbn [Nat.add].
    pose proof (R_call st) as H. now rewrite E in H.
  - rewrite (retry_round_events _ _ _ _ _ E)
      by (eapply retry_run_total; eassumption).
    rewrite !count_cons, f_retrying, g_retrying, !count_app.
    cbn [Nat.add]. apply R_add; [apply R_call | exact IH].
Qed.

Lemma send_data_attempts_counting st :
  R (count f (events (send_data_attempts env p max_attempts st)))
    (count g (events (send_data_attempts env p max_attempts st))).
Proof.
  destruct (send_data_attempts_split st)
    as [(st1 & ev1 & E & Heq) | (c & st1 & ev1 & o & E & Hrun & Hev & _)].
  - rewrite Heq. pose proof (R_call st) as H. now rewrite E in H.
  - rewrite Hev, !count_app. apply R_add.
    + pose proof (R_call st) as H. now rewrite E in H.
    + eapply retry_run_counting; eassumption.
Qed.

End Counting.

(** The counters of the state follow the trace through the loop. *)
Lemma retry_run_state code attempts st o st' :
  retry_run env p max_attempts code attempts st o ->
  final_state o = Some st' ->
  wifi_reads st' = wifi_reads st
  /\ begins st' = (begins st + count is_begin (events o))%nat
  /\ posts st' = (posts st + count is_post (events o))%nat.
Proof.
  intros Hrun. revert st'.
  induction Hrun as [code a st C | code a st st1 ev1 C E
                    | code a st c st1 ev1 o C E Hrun IH]; intros st' Hfin.
  - inversion Hfin; subst. cbn. now rewrite !Nat.add_0_r.
  - cbn [events final_state] in *. inversion Hfin; subst.
    fold retrying. rewrite !count_cons. cbn [is_begin is_post retrying].
    cbn [Nat.add].
    pose proof (send_data_state env p st st') as H.
    rewrite E in H. now apply H.
  - rewrite final_state_prepend in Hfin.
    rewrite (retry_round_events _ _ _ _ _ E)
      by (eapply retry_run_total; eassumption).
    rewrite !count_cons, !count_app. cbn [is_begin is_post retrying].
    cbn [Nat.add].
    destruct (IH st' Hfin) as (Hw & Hb & Hp).
    pose proof (send_data_state env p st st1) as H.
    rewrite E in H. destruct (H eq_refl) as (Hw1 & Hb1 & Hp1).
    cbn [events] in Hb1, Hp1. rewrite E. cbn [events].
    repeat split; lia.
Qed.

End Lifting.

(** ** The retrying sender: connections, payload, WiFi *)

(** *** The order of the HTTP calls *)

Lemma conn_run_app (a b : list Event) : forall ph,
  conn_run ph (a ++ b) =
  match conn_run ph a with
  | Some ph' => conn_run ph' b
  | None => None
  end.
Proof.
  induction a as [|e a IH]; intros ph; [reflexivity|].
  cbn [app conn_run]. destruct (conn_step ph e); [apply IH | reflexivity].
Qed.

Lemma list_snoc_cases {A : Type} (l : list A) :
  l = [] \/ exists l' x, l = l' ++ [x].
Proof.
  induction l as [|x l' _] using rev_ind; [now left | right; eauto].
Qed.

(** A run that reaches a phase other than its first has a last step. *)
Lemma conn_run_last ph0 ph (l : list Event) :
  conn_run ph0 l = Some ph -> ph <> ph0 ->
  exists l' e ph',
    l = l' ++ [e] /\ conn_run ph0 l' = Some ph' /\ conn_step ph' e = Some ph.
Proof.
  intros Hrun Hne.
  destruct (list_snoc_cases l) as [-> | (l' & e & ->)].
  - cbn in Hrun. congruence.
  - rewrite conn_run_app in Hrun.
    destruct (conn_run ph0 l') as [ph'|] eqn:E; [|discriminate].
    cbn [conn_run] in Hrun.
    destruct (conn_step ph' e) as [ph1|] eqn:Es; [|discriminate].
    exists l', e, ph'. repeat split; congruence.
Qed.

Ltac step_cases H :=
  match type of H with
  | conn_step ?ph ?e = _ =>
      destruct ph, e; cbn in H;
      repeat match type of H with
             | context [if ?b then _ else _] => destruct b
             | context [match ?b with _ => _ end] => destruct b
             end;
      try discriminate H
  end.

(** The steps that lead into each phase of a connection. *)
Lemma step_into ph e ph' :
  conn_step ph e = Some ph' ->
  match ph' with
  | Idle => True
  | Made => ph = Idle /\ e = EClientNew
  | Made2 => ph = Made /\ e = EHttpClientNew
  | Insecure => ph = Made2 /\ e = EClientSetInsecure
  | Timed => ph = Insecure /\ exists ms, e = EClientSetTimeout ms
  | Opened => ph = Timed /\ exists u, e = EHttpsBegin u true
  | Delayed => ph = Opened /\ exists d, e = EDelay d
  | Headed => ph = Delayed /\ exists n v, e = EHttpsAddHeader n v
  | Posted => ph = Headed /\ exists b c, e = EHttpsPost b c
  | Fetched => ph = Posted /\ exists body, e = EHttpsGetString body
  end.
Proof.
  intros H. step_cases H; inversion H; subst; cbn; eauto.
Qed.

(** The steps the calls that need a connection may take. *)
Lemma step_on_post ph b c ph' :
  conn_step ph (EHttpsPost b c) = Some ph' -> ph = Headed /\ ph' = Posted.
Proof. intros H. destruct ph; cbn in H; inversion H; auto. Qed.

Lemma step_on_begin ph u ok ph' :
  conn_step ph (EHttpsBegin u ok) = Some ph' -> ph = Timed.
Proof. intros H. destruct ph; cbn in H; try discriminate; auto. Qed.

(** What precedes a POST, and what precedes [https.begin]. *)
Lemma conn_run_before_post (l : list Event) :
  conn_run Idle l = Some Headed ->
  exists l' u d n v,
    l = l' ++ [EHttpsBegin u true; EDelay d; EHttpsAddHeader n v].
Proof.
  intros H.
  destruct (conn_run_last _ _ _ H ltac:(discriminate))
    as (l1 & e1 & p1 & -> & H1 & S1).
  apply step_into in S1. destruct S1 as (-> & n & v & ->).
  destruct (conn_run_last _ _ _ H1 ltac:(discriminate))
    as (l2 & e2 & p2 & -> & H2 & S2).
  apply step_into in S2. destruct S2 as (-> & d & ->).
  destruct (conn_run_last _ _ _ H2 ltac:(discriminate))
    as (l3 & e3 & p3 & -> & H3 & S3).
  apply step_into in S3. destruct S3 as (-> & u & ->).
  exists l3, u, d, n, v. now rewrite <- !app_assoc.
Qed.

Lemma conn_run_before_begin (l : list Event) :
  conn_run Idle l = Some Timed ->
  exists l' ms,
    l = l' ++ [EClientNew; EHttpClientNew; EClientSetInsecure;
               EClientSetTimeout ms].
Proof.
  intros H.
  destruct (conn_run_last _ _ _ H ltac:(discriminate))
    as (l1 & e1 & p1 & -> & H1 & S1).
  apply step_into in S1. destruct S1 as (-> & ms & ->).
  destruct (conn_run_last _ _ _ H1 ltac:(discriminate))
    as (l2 & e2 & p2 & -> & H2 & S2).
  apply step_into in S2. destruct S2 as (-> & ->).
  destruct (conn_run_last _ _ _ H2 ltac:(discriminate))
    as (l3 & e3 & p3 & -> & H3 & S3).
  apply step_into in S3. destruct S3 as (-> & ->).
  destruct (conn_run_last _ _ _ H3 ltac:(discriminate))
    as (l4 & e4 & p4 & -> & H4 & S4).
  apply step_into in S4. destruct S4 as (-> & ->).
  exists l4, ms. now rewrite <- !app_assoc.
Qed.

(** What follows a POST in a run that ends outside a connection. *)
Lemma conn_run_after_post (l : list Event) :
  conn_run Posted l = Some Idle ->
  exists body l', l = EHttpsGetString body :: EHttpsEnd :: l'.
Proof.
  intros H. destruct l as [|e1 l]; [discriminate|].
  cbn [conn_run] in H.
  destruct (conn_step Posted e1) as [p1|] eqn:S1; [|discriminate].
  destruct e1; try discriminate S1. inversion S1; subst p1.
  destruct l as [|e2 l]; [discriminate|].
  cbn [conn_run] in H.
  destruct (conn_step Fetched e2) as [p2|] eqn:S2; [|discriminate].
  destruct e2; try discriminate S2. eauto.
Qed.

(** A trace accepted from [Idle] to [Idle] frames each POST and each
    [https.begin]. *)
Lemma conn_run_framed (evs : list Event) :
  conn_run Idle evs = Some Idle ->
  (forall pre b c post,
      evs = pre ++ EHttpsPost b c :: post ->
      (exists pre' u d n v,
          pre = pre' ++ [EHttpsBegin u true; EDelay d; EHttpsAddHeader n v])
      /\ (exists body post',
            post = EHttpsGetString body :: EHttpsEnd :: post'))
  /\ (forall pre u ok post,
        evs = pre ++ EHttpsBegin u ok :: post ->
        exists pre' ms,
          pre = pre' ++ [EClientNew; EHttpClientNew; EClientSetInsecure;
                         EClientSetTimeout ms]).
Proof.
  intros Hrun. split.
  - intros pre b c post ->.
    rewrite conn_run_app in Hrun.
    destruct (conn_run Idle pre) as [ph|] eqn:Hpre; [|discriminate].
    cbn [conn_run] in Hrun.
    destruct (conn_step ph (EHttpsPost b c)) as [ph'|] eqn:S;
      [|discriminate].
    apply step_on_post in S. destruct S as [-> ->].
    split; [now apply conn_run_before_post
           | now apply conn_run_after_post].
  - intros pre u ok post ->.
    rewrite conn_run_app in Hrun.
    destruct (conn_run Idle pre) as [ph|] eqn:Hpre; [|discriminate].
    cbn [conn_run] in Hrun.
    destruct (conn_step ph (EHttpsBegin u ok)) as [ph'|] eqn:S;
      [|discriminate].
    apply step_on_begin in S. subst ph.
    now apply conn_run_before_begin.
Qed.

(** One run of the single-shot sender keeps the order, also when it
    ends inside [sos_mode]. *)
Lemma send_data_conn_run env p st :
  conn_run Idle (events (send_data env p st)) = Some Idle.
Proof. run_send_data env st; reflexivity. Qed.

Lemma retry_run_conn_run env p max_attempts code attempts st o :
  retry_run env p max_attempts code attempts st o ->
  conn_run Idle (events o) = Some Idle.
Proof.
  induction 1 as [code a st C | code a st st1 ev1 C E
                 | code a st c st1 ev1 o C E Hrun IH].
  - reflexivity.
  - cbn [events conn_run conn_step].
    pose proof (send_data_conn_run env p st) as H. now rewrite E in H.
  - rewrite events_prepend by (eapply retry_run_total; eassumption).
    cbn [app conn_run conn_step]. rewrite conn_run_app.
    pose proof (send_data_conn_run env p st) as H. rewrite E in H.
    cbn [events] in H. now rewrite H.
Qed.

Lemma send_data_attempts_conn_run env p max_attempts st :
  0 <= max_attempts < 256 ->
  conn_run Idle (events (send_data_attempts env p max_attempts st))
  = Some Idle.
Proof.
  intros Hmax.
  pose proof (send_data_conn_run env p st) as H.
  destruct (send_data_attempts_split env p max_attempts Hmax st)
    as [(st1 & ev1 & E & Heq) | (c & st1 & ev1 & o & E & Hrun & Hev & _)].
  - rewrite Heq. now rewrite E in H.
  - rewrite Hev, conn_run_app. rewrite E in H. cbn [events] in H.
    rewrite H. eapply retry_run_conn_run; eassumption.
Qed.

(** X3: in every run of the two-argument [send_data] the HTTP calls
    come in the order of the source, connection by connection
    ([conn_run] accepts the trace): each POST comes right after a
    successful [https.begin], a delay and the header, and is followed
    right away by [getString] and [https.end]; each [https.begin]
    comes right after a client of its own was built, its certificate
    checks switched off and its timeout set.  So there are as many
    POSTs, delays and [https.end]s as connections that opened, one
    client per [https.begin], and no more POSTs than single-shot
    calls, hence at most [max 1 max_attempts]. *)
Theorem send_data_attempts_connections env p max_attempts st :
  0 <= max_attempts < 256 ->
  let evs := events (send_data_attempts env p max_attempts st) in
  conn_run Idle evs = Some Idle
  /\ (forall pre b c post,
        evs = pre ++ EHttpsPost b c :: post ->
        (exists pre' u d n v,
            pre = pre' ++ [EHttpsBegin u true; EDelay d;
                           EHttpsAddHeader n v])
        /\ (exists body post',
              post = EHttpsGetString body :: EHttpsEnd :: post'))
  /\ (forall pre u ok post,
        evs = pre ++ EHttpsBegin u ok :: post ->
        exists pre' ms,
          pre = pre' ++ [EClientNew; EHttpClientNew; EClientSetInsecure;
                         EClientSetTimeout ms])
  /\ count is_end evs = count is_post evs
  /\ count is_delay evs = count is_post evs
  /\ count is_begin_ok evs = count is_post evs
  /\ count is_client evs = count is_begin evs
  /\ count is_insecure evs = count is_begin evs
  /\ (count is_post evs <= calls evs)%nat
  /\ Z.of_nat (count is_post evs) <= Z.max 1 max_attempts.
Proof.
  intros Hmax evs.
  pose proof (send_data_attempts_conn_run env p max_attempts st Hmax)
    as Hconn.
  fold evs in Hconn.
  destruct (conn_run_framed evs Hconn) as [Hpost Hbegin].
  assert (Hle : (count is_post evs <= calls evs)%nat).
  { apply (send_data_attempts_counting env p max_attempts Hmax le);
      try reflexivity; try lia.
    intros s. apply (send_data_counts env p s). }
  pose proof (send_data_attempts_calls env p max_attempts st Hmax)
    as [_ Hcalls].
  fold evs in Hcalls.
  split; [exact Hconn|]. split; [exact Hpost|]. split; [exact Hbegin|].
  repeat split; try exact Hle; try lia;
    apply (send_data_attempts_counting env p max_attempts Hmax eq);
    try reflexivity; try (intros; subst; reflexivity);
    intros s; apply (send_data_counts env p s).
Qed.

(** Three attempts against a server that answers 500: the trace keeps
    the order, with three POSTs and three [https.end]. *)
Lemma send_data_attempts_connections_witness :
  0 <= 3 < 256
  /\ conn_run Idle (events (send_data_attempts env_500 "{}" 3 st0))
     = Some Idle
  /\ count is_end (events (send_data_attempts env_500 "{}" 3 st0))
     = count is_post (events (send_data_attempts env_500 "{}" 3 st0)).
Proof.
  assert (H : 0 <= 3 < 256) by lia.
  split; [exact H|].
  pose proof (send_data_attempts_connections env_500 "{}" 3 st0 H) as T.
  cbv zeta in T. destruct T as (Hc & _ & _ & He & _).
  split; [exact Hc | exact He].
Defined.

(** X4: every request of a run of the two-argument [send_data] is the
    same one: each POST carries the payload given by the caller, each
    [https.begin] goes to the URL of the file, each client gets the
    timeout of 50000 ms, each header is the JSON content type and
    each delay is 1000 ms. *)
Theorem send_data_attempts_same_request env p max_attempts st :
  0 <= max_attempts < 256 ->
  let evs := events (send_data_attempts env p max_attempts st) in
  (forall b c, In (EHttpsPost b c) evs -> b = p)
  /\ (forall u ok, In (EHttpsBegin u ok) evs -> u = url)
  /\ (forall ms, In (EClientSetTimeout ms) evs -> ms = 50000)
  /\ (forall n v, In (EHttpsAddHeader n v) evs ->
        n = "Content-Type"%string /\ v = "application/json"%string)
  /\ (forall ms, In (EDelay ms) evs -> ms = 1000).
Proof.
  intros Hmax evs.
  assert (H : Forall (sender_event p) evs).
  { apply send_data_attempts_each; [assumption | exact I |].
    intros s. apply send_data_sender_events. }
  rewrite Forall_forall in H.
  repeat split; intros; match goal with
                        | Hin : In _ evs |- _ => apply (H _ Hin)
                        end.
Qed.

(** Every POST of four attempts carries the payload. *)
Lemma send_data_attempts_same_request_witness :
  0 <= 4 < 256
  /\ forall b c,
       In (EHttpsPost b c)
          (events (send_data_attempts env_500x3_200 "{}" 4 st0)) ->
       b = "{}"%string.
Proof.
  assert (H : 0 <= 4 < 256) by lia.
  split; [exact H|].
  apply (send_data_attempts_same_request env_500x3_200 "{}" 4 st0 H).
Defined.

(** X5: neither [send_data] touches the WiFi connection: a run has no
    [WiFi.mode], [WiFi.begin] or [WiFi.status] call, whatever statuses
    come back, and leaves the sequence of WiFi readings where it
    was. *)
Theorem send_data_never_uses_wifi env p max_attempts st :
  0 <= max_attempts < 256 ->
  count is_wifi (events (send_data env p st)) = 0%nat
  /\ count is_wifi (events (send_data_attempts env p max_attempts st)) = 0%nat
  /\ option_map wifi_reads (final_state (send_data env p st))
     = Some (wifi_reads st)
  /\ option_map wifi_reads
       (final_state (send_data_attempts env p max_attempts st))
     = Some (wifi_reads st).
Proof.
  intros Hmax.
  assert (Hone : forall s,
             option_map wifi_reads (final_state (send_data env p s))
             = Some (wifi_reads s)).
  { intros s. pose proof (send_data_state env p s) as H.
    pose proof (send_data_total env p s) as Ht.
    destruct (send_data env p s) as [c s1 e1 | s1 e1 |];
      try congruence; cbn in *;
      destruct (H s1 eq_refl) as (Hw & _); now rewrite Hw. }
  split; [apply (send_data_counts env p st)|].
  split.
  - assert (H : Forall (sender_event p)
                  (events (send_data_attempts env p max_attempts st))).
    { apply send_data_attempts_each; [assumption | exact I |].
      intros s. apply send_data_sender_events. }
    induction H as [|e l He Hl IH]; [reflexivity|].
    rewrite count_cons, IH. destruct e; cbn in He |- *;
      try reflexivity; contradiction.
  - split; [apply Hone|].
    destruct (send_data_attempts_split env p max_attempts Hmax st)
      as [(st1 & ev1 & E & Heq)
         | (c & st1 & ev1 & o & E & Hrun & _ & Hfin & _)].
    + rewrite Heq. specialize (Hone st). now rewrite E in Hone.
    + rewrite Hfin. specialize (Hone st). rewrite E in Hone.
      cbn in Hone. inversion Hone as [Hw1].
      pose proof (retry_run_total _ _ _ _ _ _ _ Hrun) as Ht.
      destruct o as [[] s2 e2 | s2 e2 |]; try congruence; cbn;
        destruct (retry_run_state env p max_attempts Hmax _ _ _ _ _ Hrun
                    eq_refl) as (Hw & _);
        now rewrite Hw, Hw1.
Qed.

Lemma send_data_never_uses_wifi_witness :
  0 <= 4 < 256
  /\ count is_wifi (events (send_data_attempts env_500x3_200 "{}" 4 st0))
     = 0%nat.
Proof.
  assert (H : 0 <= 4 < 256) by lia.
  split; [exact H|].
  apply (send_data_never_uses_wifi env_500x3_200 "{}" 4 st0 H).
Defined.

(** X6: a first status that is not bad ends the two-argument
    [send_data] at once, whatever [max_attempts] is: the run is that
    single call, with no retry notice and the status dropped. *)
Theorem send_data_attempts_good_first env p max_attempts st c st1 ev1 :
  send_data env p st = Returned c st1 ev1 ->
  is_bad_http_code c = false ->
  send_data_attempts env p max_attempts st = Returned tt st1 ev1.
Proof.
  intros E Hgood.
  unfold send_data_attempts, send_data_attempts_fuel, bind. rewrite E.
  change loop_fuel with (S (Nat.pred loop_fuel)).
  cbn [retry_loop]. rewrite Hgood. cbn [andb]. unfold ret.
  cbn [prepend]. now rewrite app_nil_r.
Qed.

(** The server answers 200 at once; five attempts were allowed. *)
Lemma send_data_attempts_good_first_witness :
  calls (events (send_data_attempts env_200 "{}" 5 st0)) = 1%nat.
Proof.
  destruct (send_data env_200 "{}" st0) as [c st1 ev1 | |] eqn:E;
    try (vm_compute in E; discriminate).
  assert (Hc : c = 200) by (vm_compute in E; now inversion E).
  assert (Hgood : is_bad_http_code c = false) by now rewrite Hc.
  rewrite (send_data_attempts_good_first env_200 "{}" 5 st0 c st1 ev1
             E Hgood).
  cbn [events].
  assert (He : ev1 = events (send_data env_200 "{}" st0)) by now rewrite E.
  rewrite He. reflexivity.
Defined.

(** ** The retrying sender against a reachable server *)

Lemma send_data_healthy env p st :
  T1C st = 0 -> begin_answers env (begins st) = true ->
  exists ev,
    send_data env p st =
    Returned (fst (post_answers env (posts st))) (next_post (next_begin st))
      ev.
Proof.
  intros HT Hb. apply Z.eqb_eq in HT.
  run_send_data env st; try congruence; eexists; reflexivity.
Qed.

Lemma retries_first_good (code_at : nat -> Z) : forall k budget n,
  (k <= budget)%nat ->
  (forall i, (i < k)%nat -> bad_status (code_at (n + i)%nat)) ->
  is_bad_http_code (code_at (n + k)%nat) = false ->
  retries code_at budget (code_at n) (S n) = k.
Proof.
  induction k as [|k IH]; intros budget n Hk Hbad Hgood.
  - rewrite Nat.add_0_r in Hgood.
    destruct budget; cbn [retries]; [reflexivity | now rewrite Hgood].
  - destruct budget as [|budget]; [lia|]. cbn [retries].
    pose proof (Hbad 0%nat ltac:(lia)) as H0.
    rewrite Nat.add_0_r in H0. unfold bad_status in H0. rewrite H0.
    f_equal. apply IH; [lia | |].
    + intros i Hi. specialize (Hbad (S i) ltac:(lia)).
      now rewrite Nat.add_succ_r in Hbad.
    + now rewrite Nat.add_succ_r in Hgood.
Qed.

Section Healthy.

Variable env : Env.
Variable p : string.
Variable max_attempts : Z.
Hypothesis max_range : 0 <= max_attempts < 256.
Hypothesis begin_ok : forall k, begin_answers env k = true.

Let code_at : nat -> Z := fun n => fst (post_answers env n).

(** With [T1C] clear and every connection opening, the loop is the
    retry policy run on the answers of the server, taken in order. *)
Lemma retry_run_healthy code attempts st o :
  retry_run env p max_attempts code attempts st o ->
  T1C st = 0 -> 0 <= attempts ->
  result o = Some tt
  /\ calls (events o)
     = retries code_at (Z.to_nat (max_attempts - attempts)) code (posts st)
  /\ statuses (events o) = map code_at (seq (posts st) (calls (events o))).
Proof.
  induction 1 as [code a st C | code a st st1 ev1 C E
                 | code a st c st1 ev1 o C E Hrun IH]; intros HT Ha.
  - split; [reflexivity|]. split; [|reflexivity].
    change (calls (events (Returned tt st []))) with 0%nat.
    destruct (Z.to_nat (max_attempts - a)) eqn:Hb; [reflexivity|].
    cbn [retries].
    assert (Hlt : (a <? max_attempts) = true) by (apply Z.ltb_lt; lia).
    rewrite Hlt, andb_true_r in C. now rewrite C.
  - destruct (send_data_healthy env p st HT (begin_ok _)) as (ev & E').
    congruence.
  - destruct (send_data_healthy env p st HT (begin_ok _)) as (ev & E').
    rewrite E' in E. inversion E; subst c st1 ev1. clear E.
    destruct (loop_test_true _ _ _ C) as [Hbad Hlt].
    destruct (round_events _ _ _ _ _ _ _ E'
                (retry_run_total _ _ _ _ _ _ _ Hrun)) as (_ & Hc & Hs & _).
    rewrite (next_attempt max_attempts max_range) in IH by lia.
    destruct (IH HT ltac:(lia)) as (Hres & Hcalls & Hst).
    cbn [posts next_post next_begin] in Hcalls, Hst.
    rewrite result_prepend. fold retrying. rewrite Hc, Hs.
    split; [exact Hres|]. split.
    + replace (Z.to_nat (max_attempts - a))
        with (S (Z.to_nat (max_attempts - (a + 1)))) by lia.
      cbn [retries]. unfold bad_status in Hbad. rewrite Hbad.
      now rewrite Hcalls.
    + cbn [seq map]. now rewrite Hst.
Qed.

Lemma send_data_attempts_healthy st :
  T1C st = 0 ->
  let evs := events (send_data_attempts env p max_attempts st) in
  result (send_data_attempts env p max_attempts st) = Some tt
  /\ calls evs
     = S (retries code_at (Z.to_nat (max_attempts - 1))
            (code_at (posts st)) (S (posts st)))
  /\ statuses evs = map code_at (seq (posts st) (calls evs)).
Proof.
  intros HT evs. unfold evs. clear evs.
  destruct (send_data_healthy env p st HT (begin_ok _)) as (ev & E').
  destruct (send_data_attempts_split env p max_attempts max_range st)
    as [(st1 & ev1 & E & Heq)
       | (c & st1 & ev1 & o & E & Hrun & Hev & _ & Hres)];
    [congruence|].
  rewrite E' in E. inversion E; subst c st1 ev1. clear E.
  destruct (send_data_returned _ _ _ _ _ _ E') as (_ & Hc & Hs & _).
  destruct (retry_run_healthy _ _ _ _ Hrun HT ltac:(lia))
    as (Hr & Hcalls & Hst).
  cbn [posts next_post next_begin] in Hcalls, Hst.
  rewrite Hres, Hev, calls_app, statuses_app, Hc, Hs.
  cbn [Nat.add app seq map].
  split; [exact Hr|]. split; [now rewrite Hcalls | now rewrite Hst].
Qed.

End Healthy.

(** X7: with [T1C] clear and every connection opening, the
    two-argument [send_data] returns normally; it makes one call plus
    as many retries as the retry policy [retries] gives on the
    statuses of the server, and the statuses it gets are the answers of
    the server taken in order, one per call. *)
Theorem send_data_attempts_follows_policy env p max_attempts st :
  0 <= max_attempts < 256 ->
  (forall k, begin_answers env k = true) ->
  T1C st = 0 ->
  let code_at := fun n => fst (post_answers env n) in
  let evs := events (send_data_attempts env p max_attempts st) in
  result (send_data_attempts env p max_attempts st) = Some tt
  /\ calls evs
     = S (retries code_at (Z.to_nat (max_attempts - 1))
            (code_at (posts st)) (S (posts st)))
  /\ statuses evs = map code_at (seq (posts st) (calls evs)).
Proof.
  intros Hmax Hb HT.
  exact (send_data_attempts_healthy env p max_attempts Hmax Hb st HT).
Qed.

Lemma send_data_attempts_follows_policy_witness :
  0 <= 4 < 256
  /\ (forall k, begin_answers env_500x3_200 k = true)
  /\ T1C st0 = 0
  /\ statuses (events (send_data_attempts env_500x3_200 "{}" 4 st0))
     = map (fun n => fst (post_answers env_500x3_200 n))
         (seq (posts st0)
            (calls (events (send_data_attempts env_500x3_200 "{}" 4 st0)))).
Proof.
  assert (H : 0 <= 4 < 256) by lia.
  assert (Hb : forall k, begin_answers env_500x3_200 k = true)
    by reflexivity.
  assert (HT : T1C st0 = 0) by reflexivity.
  split; [exact H|]. split; [exact Hb|]. split; [exact HT|].
  apply (send_data_attempts_follows_policy env_500x3_200 "{}" 4 st0
           H Hb HT).
Defined.

(** X8: with [T1C] clear and every connection opening, if the first
    [k] answers of the server are bad, the next one is not, and
    [k + 1] does not exceed [max 1 max_attempts], then exactly [k + 1]
    calls are made, the last status is the good one, and the call
    returns normally. *)
Theorem send_data_attempts_stops_at_first_good env p max_attempts st k :
  0 <= max_attempts < 256 ->
  (forall n, begin_answers env n = true) ->
  T1C st = 0 ->
  Z.of_nat k < Z.max 1 max_attempts ->
  (forall i, (i < k)%nat ->
     bad_status (fst (post_answers env (posts st + i)%nat))) ->
  is_bad_http_code (fst (post_answers env (posts st + k)%nat)) = false ->
  let evs := events (send_data_attempts env p max_attempts st) in
  result (send_data_attempts env p max_attempts st) = Some tt
  /\ calls evs = S k
  /\ last (statuses evs) 0 = fst (post_answers env (posts st + k)%nat).
Proof.
  intros Hmax Hb HT Hk Hbad Hgood evs.
  destruct (send_data_attempts_healthy env p max_attempts Hmax Hb st HT)
    as (Hres & Hcalls & Hst).
  fold evs in Hcalls, Hst.
  assert (Hn : calls evs = S k).
  { rewrite Hcalls. f_equal.
    apply (retries_first_good (fun n => fst (post_answers env n)));
      [lia | exact Hbad | exact Hgood]. }
  split; [exact Hres|]. split; [exact Hn|].
  rewrite Hst, Hn, seq_S, map_app. cbn [map].
  now rewrite last_last.
Qed.

Lemma send_data_attempts_stops_at_first_good_witness :
  calls (events (send_data_attempts env_500x3_200 "{}" 10 st0)) = 4%nat.
Proof.
  assert (H : 0 <= 10 < 256) by lia.
  assert (Hb : forall n, begin_answers env_500x3_200 n = true)
    by reflexivity.
  assert (HT : T1C st0 = 0) by reflexivity.
  assert (Hk : Z.of_nat 3 < Z.max 1 10) by (cbn; lia).
  assert (Hbad : forall i, (i < 3)%nat ->
            bad_status (fst (post_answers env_500x3_200 (posts st0 + i)%nat))).
  { intros i Hi. destruct i as [|[|[|i]]]; try reflexivity. lia. }
  assert (Hgood : is_bad_http_code
            (fst (post_answers env_500x3_200 (posts st0 + 3)%nat)) = false)
    by reflexivity.
  apply (send_data_attempts_stops_at_first_good env_500x3_200 "{}" 10 st0 3
           H Hb HT Hk Hbad Hgood).
Defined.

(** ** The WiFi connector: what it emits and how long it waits *)

Lemma wifi_loop_trace env : forall fuel attempts st,
  0 <= attempts <= 10 -> 11 - attempts <= Z.of_nat fuel ->
  let evs := events (wifi_loop env fuel attempts st) in
  Forall poll_event evs
  /\ count is_failed_line evs
     = (if (status_reads evs =? delays evs)%nat then 1 else 0)%nat.
Proof.
  induction fuel as [|fuel IH]; intros attempts st Ha Hfuel.
  - change (Z.of_nat 0) with 0 in Hfuel. lia.
  - cbv zeta. cbn [wifi_loop].
    unfold bind, WiFi_status, Serial_print, delay, Serial_println, emit, ret.
    rewrite (Z.mod_small (attempts + 1)) by lia.
    destruct (wl_eqb (wifi_readings env (wifi_reads st)) WL_CONNECTED);
      cbn [negb].
    + cbn [prepend app events]. split; [repeat constructor | reflexivity].
    + destruct (10 <? attempts + 1) eqn:Hbrk.
      * cbn [prepend app events].
        split; [repeat constructor | reflexivity].
      * apply Z.ltb_ge in Hbrk.
        destruct (wifi_loop_spec env fuel (attempts + 1) (next_wifi st))
          as (evs & Hrun & _); [lia | lia |].
        specialize (IH (attempts + 1) (next_wifi st) ltac:(lia) ltac:(lia)).
        cbv zeta in IH. rewrite Hrun in IH |- *. cbn [events] in IH.
        destruct IH as [Hall Hcount].
        cbn [prepend app events]. split.
        -- repeat constructor. exact Hall.
        -- unfold status_reads, delays in *.
           rewrite !count_cons.
           cbn [is_failed_line is_status_read is_delay Nat.add Nat.eqb].
           exact Hcount.
Qed.

Lemma poll_events_count (f : Event -> bool) (l : list Event) :
  (forall e, poll_event e -> f e = false) ->
  Forall poll_event l -> count f l = 0%nat.
Proof.
  intros Hf. induction 1 as [|e l He Hl IH]; [reflexivity|].
  now rewrite count_cons, (Hf e He), IH.
Qed.

(** The run of the connector around the trace [evl] of its loop. *)
Lemma initialize_wifi_trace env st :
  exists evl,
    let last_read :=
      wifi_readings env (wifi_reads st + status_reads evl) in
    let b := wl_eqb last_read WL_CONNECTED in
    initialize_wifi env st =
      Returned b
        (mkState (T1C st) (S (wifi_reads st + status_reads evl)) (begins st)
           (posts st))
        ([EWiFiMode WIFI_STA; EWiFiBegin ssid password;
          ESerialPrint msg_connecting]
         ++ evl
         ++ [EWiFiStatus last_read;
             ESerialPrintln
               (if b then msg_wifi_connected else msg_wifi_failed)])
    /\ (status_reads evl <= 11)%nat
    /\ (forall k, (k < delays evl)%nat ->
          wifi_readings env (wifi_reads st + k) <> WL_CONNECTED)
    /\ ((status_reads evl = S (delays evl)
         /\ wifi_readings env (wifi_reads st + delays evl) = WL_CONNECTED)
        \/ (status_reads evl = delays evl /\ delays evl = 11%nat))
    /\ Forall poll_event evl
    /\ count is_failed_line evl
       = (if (status_reads evl =? delays evl)%nat then 1 else 0)%nat.
Proof.
  assert (Hfuel : 11 - 0 <= Z.of_nat loop_fuel)
    by (rewrite loop_fuel_value; lia).
  destruct (wifi_loop_spec env loop_fuel 0 st) as
    (evl & Hrun & Hd & Hr & Hmiss & Hexit & Hms); [lia | exact Hfuel |].
  pose proof (wifi_loop_trace env loop_fuel 0 st ltac:(lia) Hfuel) as Htr.
  rewrite Hrun in Htr. cbn [events] in Htr. destruct Htr as [Hall Hcount].
  exists evl. cbv zeta. split; [|split; [|split; [|split; [|split]]]].
  - unfold initialize_wifi, initialize_wifi_fuel, WiFi_mode, WiFi_begin,
      Serial_print.
    unfold bind at 1, emit. unfold bind at 1. unfold bind at 1.
    unfold bind at 1. rewrite Hrun.
    unfold bind, WiFi_status, Serial_println, emit, ret.
    cbn [wifi_reads T1C begins posts next_wifi].
    destruct (wl_eqb (wifi_readings env (wifi_reads st + status_reads evl))
                WL_CONNECTED);
      cbn [prepend app]; rewrite ?app_nil_r; reflexivity.
  - lia.
  - exact Hmiss.
  - destruct Hexit as [H | [H1 H2]]; [now left | right].
    split; [exact H1 | lia].
  - exact Hall.
  - exact Hcount.
Qed.

(** Counting over the trace of the connector. *)
Lemma connector_count (f : Event -> bool) (evl : list Event)
    (s : wl_status_t) (m : string) :
  count f
    ([EWiFiMode WIFI_STA; EWiFiBegin ssid password;
      ESerialPrint msg_connecting] ++ evl
     ++ [EWiFiStatus s; ESerialPrintln m])
  = ((if f (EWiFiMode WIFI_STA) then 1 else 0)
     + ((if f (EWiFiBegin ssid password) then 1 else 0)
        + ((if f (ESerialPrint msg_connecting) then 1 else 0)
           + (count f evl
              + ((if f (EWiFiStatus s) then 1 else 0)
                 + ((if f (ESerialPrintln m) then 1 else 0) + 0))))))%nat.
Proof.
  cbn [app]. rewrite !count_cons, count_app, !count_cons. reflexivity.
Qed.

(** X9: [initialize_wifi] sets station mode and starts the
    association once, first thing and with the credentials of the
    file, and never again while it polls; it never calls [sos_mode],
    never opens a connection or POSTs, and leaves the answers of the
    server unconsumed. *)
Theorem initialize_wifi_only_wifi env st :
  let o := initialize_wifi env st in
  (exists rest,
      events o = EWiFiMode WIFI_STA :: EWiFiBegin ssid password :: rest
      /\ count is_wifi_setup rest = 0%nat)
  /\ count is_sos (events o) = 0%nat
  /\ count is_network (events o) = 0%nat
  /\ calls (events o) = 0%nat
  /\ option_map begins (final_state o) = Some (begins st)
  /\ option_map posts (final_state o) = Some (posts st).
Proof.
  destruct (initialize_wifi_trace env st)
    as (evl & Hrun & _ & _ & _ & Hall & _).
  cbv zeta in Hrun |- *. rewrite Hrun. cbn [events final_state option_map].
  assert (Hzero : forall f, (forall e, poll_event e -> f e = false) ->
                    count f evl = 0%nat)
    by (intros f Hf; now apply poll_events_count).
  split; [|split; [|split; [|split; [|split]]]].
  - eexists. split; [reflexivity|].
    rewrite count_cons, count_app, !count_cons, Hzero.
    + destruct (wl_eqb _ _); reflexivity.
    + intros e He. destruct e; try reflexivity; contradiction.
  - rewrite connector_count, Hzero; [reflexivity|].
    intros e He. destruct e; try reflexivity; contradiction.
  - rewrite connector_count, Hzero; [reflexivity|].
    intros e He. destruct e; try reflexivity; contradiction.
  - unfold calls. rewrite connector_count, Hzero; [reflexivity|].
    intros e He. destruct e; try reflexivity; contradiction.
  - reflexivity.
  - reflexivity.
Qed.

(** X10: when the first 11 readings are all not connected the loop
    gives up after 11 delays and prints the failure line; the 12th
    reading alone then decides: connected, the connector returns true
    with that one failure line in the log; not connected, it returns
    false and the failure line is printed a second time. *)
Theorem initialize_wifi_gives_up env st :
  (forall j, (j < 11)%nat ->
     wifi_readings env (wifi_reads st + j) <> WL_CONNECTED) ->
  let o := initialize_wifi env st in
  let b := wl_eqb (wifi_readings env (wifi_reads st + 11)) WL_CONNECTED in
  result o = Some b
  /\ delays (events o) = 11%nat
  /\ status_reads (events o) = 12%nat
  /\ count is_failed_line (events o) = (if b then 1 else 2)%nat.
Proof.
  intros Hnever.
  destruct (initialize_wifi_trace env st)
    as (evl & Hrun & Hr & Hmiss & Hexit & Hall & Hfail).
  cbv zeta in Hrun |- *.
  assert (Hbreak : status_reads evl = 11%nat /\ delays evl = 11%nat).
  { destruct Hexit as [[He Hc] | [He Hd]]; [|lia].
    destruct (Hnever (delays evl) ltac:(lia)). exact Hc. }
  destruct Hbreak as [Hreads Hdelays].
  rewrite Hreads, Hdelays in Hfail. cbn in Hfail.
  rewrite Hreads in Hrun. rewrite Hrun. cbn [result events].
  unfold delays, status_reads in *.
  rewrite !connector_count, Hfail, Hreads, Hdelays.
  repeat split; try reflexivity.
  destruct (wl_eqb _ _); reflexivity.
Qed.

Lemma initialize_wifi_gives_up_witness :
  (forall j, (j < 11)%nat ->
     wifi_readings env_never_connected (wifi_reads st0 + j) <> WL_CONNECTED)
  /\ count is_failed_line (events (initialize_wifi env_never_connected st0))
     = 2%nat.
Proof.
  assert (H : forall j, (j < 11)%nat ->
            wifi_readings env_never_connected (wifi_reads st0 + j)
            <> WL_CONNECTED) by (intros j _; discriminate).
  split; [exact H|].
  apply (initialize_wifi_gives_up env_never_connected st0 H).
Defined.

(** X11: when the first connected reading is reading number [k], with
    [k] at most 10, the connector has waited exactly [k] seconds and
    read the status [k + 2] times when it returns, and its result is
    whether reading number [k + 1] is connected; the failure line is
    printed only if it is not. *)
Theorem initialize_wifi_time_to_connect env st k :
  (k <= 10)%nat ->
  (forall j, (j < k)%nat ->
     wifi_readings env (wifi_reads st + j) <> WL_CONNECTED) ->
  wifi_readings env (wifi_reads st + k) = WL_CONNECTED ->
  let o := initialize_wifi env st in
  let b := wl_eqb (wifi_readings env (wifi_reads st + S k)) WL_CONNECTED in
  result o = Some b
  /\ delays (events o) = k
  /\ status_reads (events o) = (k + 2)%nat
  /\ count is_failed_line (events o) = (if b then 0 else 1)%nat.
Proof.
  intros Hk Hmissk Hconn.
  destruct (initialize_wifi_trace env st)
    as (evl & Hrun & Hr & Hmiss & Hexit & Hall & Hfail).
  cbv zeta in Hrun |- *.
  assert (Hd : delays evl = k).
  { destruct (Nat.lt_trichotomy (delays evl) k) as [Hlt | [Heq | Hgt]].
    - destruct Hexit as [[He Hc] | [He Hd]]; [|lia].
      now destruct (Hmissk _ Hlt).
    - exact Heq.
    - now destruct (Hmiss _ Hgt). }
  assert (Hreads : status_reads evl = S k).
  { destruct Hexit as [[He Hc] | [He Hd11]]; lia. }
  rewrite Hreads, Hd in Hfail.
  replace (S k =? k)%nat with false in Hfail
    by (symmetry; apply Nat.eqb_neq; lia).
  rewrite Hreads in Hrun. rewrite Hrun. cbn [result events].
  unfold delays, status_reads in *.
  rewrite !connector_count, Hfail, Hreads, Hd.
  repeat split; try reflexivity.
  - cbn. lia.
  - cbn. lia.
  - destruct (wl_eqb _ _); reflexivity.
Qed.

(** Connected from reading number 3 on: three delays, five readings,
    true. *)
Lemma initialize_wifi_time_to_connect_witness :
  (3 <= 10)%nat
  /\ (forall j, (j < 3)%nat ->
       wifi_readings env_connects_at_3 (wifi_reads st0 + j) <> WL_CONNECTED)
  /\ wifi_readings env_connects_at_3 (wifi_reads st0 + 3) = WL_CONNECTED
  /\ result (initialize_wifi env_connects_at_3 st0) = Some true
  /\ delays (events (initialize_wifi env_connects_at_3 st0)) = 3%nat
  /\ status_reads (events (initialize_wifi env_connects_at_3 st0)) = 5%nat.
Proof.
  assert (Hk : (3 <= 10)%nat) by lia.
  assert (Hm : forall j, (j < 3)%nat ->
             wifi_readings env_connects_at_3 (wifi_reads st0 + j)
             <> WL_CONNECTED).
  { intros j Hj. destruct j as [|[|[|j]]]; try discriminate. lia. }
  assert (Hc : wifi_readings env_connects_at_3 (wifi_reads st0 + 3)
               = WL_CONNECTED) by reflexivity.
  split; [exact Hk|]. split; [exact Hm|]. split; [exact Hc|].
  pose proof (initialize_wifi_time_to_connect env_connects_at_3 st0 3
                Hk Hm Hc) as T.
  cbv zeta in T. destruct T as (Hr & Hd & Hs & _).
  split; [exact Hr|]. split; [exact Hd | exact Hs].
Defined.

(** ** The retrying sender can only be stopped by [sos_mode] *)

Lemma last_app_nonempty {A : Type} (a b : list A) (d : A) :
  b <> [] -> last (a ++ b) d = last b d.
Proof.
  intros Hb. induction a as [|x a IH]; [reflexivity|].
  cbn [app]. destruct (a ++ b) as [|y l] eqn:E.
  - destruct a; [cbn in E; contradiction | discriminate].
  - exact IH.
Qed.

Lemma send_data_halted_last env p st st1 ev :
  send_data env p st = Halted st1 ev -> last ev (ECall p) = ESosMode.
Proof.
  run_send_data env st; intros H; inversion H; subst; reflexivity.
Qed.

Lemma retry_run_blocked env p max_attempts code attempts st o :
  retry_run env p max_attempts code attempts st o ->
  result o = None ->
  sos_returns env = false /\ last (events o) (ECall p) = ESosMode.
Proof.
  induction 1 as [code a st C | code a st st1 ev1 C E
                 | code a st c st1 ev1 o C E Hrun IH]; intros Hres.
  - discriminate.
  - destruct (send_data_halted _ _ _ _ _ E) as (_ & _ & _ & _ & Hsos).
    split; [exact Hsos|].
    pose proof (send_data_halted_last _ _ _ _ _ E) as Hlast.
    cbn [events].
    change (ESerialPrintln msg_retrying :: ev1)
      with ([ESerialPrintln msg_retrying] ++ ev1).
    rewrite last_app_nonempty; [exact Hlast|].
    intros Hnil. subst ev1. discriminate.
  - rewrite result_prepend in Hres.
    destruct (IH Hres) as [Hsos Hlast]. split; [exact Hsos|].
    rewrite events_prepend by (eapply retry_run_total; eassumption).
    rewrite last_app_nonempty; [exact Hlast|].
    intros Hnil. rewrite Hnil in Hlast. discriminate.
Qed.

(** X12: only [sos_mode] can keep the two-argument [send_data] from
    returning.  If [sos_mode] hands control back, every run returns;
    and a run that does not return ends with the call of [sos_mode],
    inside its last single-shot call, with no retry after it. *)
Theorem send_data_attempts_blocks_only_in_sos env p max_attempts st :
  0 <= max_attempts < 256 ->
  let o := send_data_attempts env p max_attempts st in
  (sos_returns env = true -> result o = Some tt)
  /\ (result o = None ->
      sos_returns env = false
      /\ last (events o) (ECall p) = ESosMode
      /\ calls (events o) = S (List.length (statuses (events o)))).
Proof.
  intros Hmax o.
  pose proof (send_data_attempts_statuses env p max_attempts st Hmax) as Hst.
  fold o in Hst.
  assert (Hblocked : result o = None ->
            sos_returns env = false /\ last (events o) (ECall p) = ESosMode).
  { unfold o.
    destruct (send_data_attempts_split env p max_attempts Hmax st)
      as [(st1 & ev1 & E & Heq)
         | (c & st1 & ev1 & o1 & E & Hrun & Hev & _ & Hres)].
    - rewrite Heq. intros _. cbn [events].
      destruct (send_data_halted _ _ _ _ _ E) as (_ & _ & _ & _ & Hsos).
      split; [exact Hsos | now apply send_data_halted_last with (st := st)
                                      (st1 := st1) (env := env)].
    - rewrite Hres, Hev. intros Hnone.
      destruct (retry_run_blocked _ _ _ _ _ _ _ Hrun Hnone) as [Hsos Hlast].
      split; [exact Hsos|].
      rewrite last_app_nonempty; [exact Hlast|].
      intros Hnil. rewrite Hnil in Hlast. discriminate. }
  split.
  - intros Hsos. destruct (result o) as [[]|] eqn:Hres; [reflexivity|].
    destruct (Hblocked eq_refl) as [Hno _]. congruence.
  - intros Hnone. destruct (Hblocked Hnone) as [Hsos Hlast].
    rewrite Hnone in Hst. repeat split; auto.
Qed.

(** [sos_mode] returns and no connection ever opens: the call still
    returns. *)
Lemma send_data_attempts_blocks_only_in_sos_witness :
  0 <= 3 < 256
  /\ result (send_data_attempts env_no_begin "{}" 3 st0) = Some tt.
Proof.
  assert (H : 0 <= 3 < 256) by lia.
  split; [exact H|].
  apply (send_data_attempts_blocks_only_in_sos env_no_begin "{}" 3 st0 H).
  reflexivity.
Defined.

(** ** The timer register *)







